(** * ReverseGeoTagger: the geocoding cache and the worker pipeline

    A shallow embedding of [cache.py] (class [GeocodingCache]) and of
    [worker.py] (class [GeocodingWorker]), followed by the properties of the
    design document that concern them.

    Conventions of the embedding.
    - A Python [dict] is a [gmap]; the iteration order of a dict is the
      insertion order, that of a [gmap] is fixed by its keys.  No result
      below depends on the order (only counts and sets of keys do).
    - A method of a class is a function of the object ([self]) that returns
      its result together with the object after the call.
    - [datetime.now()] is an argument [now]: a naive local time counted in
      microseconds, the resolution of [datetime] and [timedelta].
    - Builtins and library functions on floats and digests ([round],
      [format], [float], [hashlib.md5]) are the fields of [PyRuntime].
    - Text is a [string] of one-byte characters. *)

From Stdlib Require Import ZArith Lia String Ascii List DecimalString.
From stdpp Require Import base gmap strings list fin_maps pretty.

Local Open Scope string_scope.
Local Open Scope list_scope.
Local Open Scope Z_scope.

(** ** Python's library, as far as the program calls it *)

Class PyRuntime : Type := {
  (** Python's [float] *)
  float : Type;
  (** [round(x, ndigits)] *)
  round_ : float -> Z -> float;
  (** [f"{x}"] for a float [x] *)
  float_str : float -> string;
  (** [hashlib.md5(s.encode()).hexdigest()] *)
  md5_hexdigest : string -> string;
  (** [float(s)]; [None] stands for [ValueError] *)
  parse_float : string -> option float
}.

(** ** String methods used by the worker *)

Module Str.

(** [str.isspace] on the characters below 128 *)
Definition isspace (c : ascii) : bool :=
  let n := nat_of_ascii c in
  (Nat.leb 9 n && Nat.leb n 13) || (Nat.leb 28 n && Nat.leb n 32).

Fixpoint lstrip (s : string) : string :=
  match s with
  | EmptyString => EmptyString
  | String c s' => if isspace c then lstrip s' else s
  end.

Fixpoint rev_append (s acc : string) : string :=
  match s with
  | EmptyString => acc
  | String c s' => rev_append s' (String c acc)
  end.

Definition reverse (s : string) : string := rev_append s EmptyString.

Definition rstrip (s : string) : string := reverse (lstrip (reverse s)).

(** [s.strip()] *)
Definition strip (s : string) : string := rstrip (lstrip s).

(** [s.split(sep)] for a separator of one character: never the empty list *)
Fixpoint split (sep : ascii) (s : string) : list string :=
  match s with
  | EmptyString => [EmptyString]
  | String c s' =>
      if Ascii.eqb c sep then EmptyString :: split sep s'
      else match split sep s' with
           | [] => [String c EmptyString]
           | w :: ws => String c w :: ws
           end
  end.

(** [sub in s] *)
Fixpoint contains (sub s : string) : bool :=
  String.prefix sub s ||
  match s with
  | EmptyString => false
  | String _ s' => contains sub s'
  end.

(** the newline character *)
Definition LF : ascii := ascii_of_nat 10.

(** [bool(s)] *)
Definition truthy (s : string) : bool :=
  match s with EmptyString => false | _ => true end.

End Str.

(** ** cache.py *)

Module Cache.

(** A location record is a [Dict[str, str]]. *)
Abbreviation LocationRecord := (gmap string string).

(** [bool(d)] for a dict *)
Definition dict_truthy (d : LocationRecord) : bool := negb (bool_decide (d = ∅)).

(** What the code can observe of the [timestamp] field of an entry:
    - [ts_falsy]: [entry.get('timestamp')] is falsy (key absent, [null],
      the empty string);
    - [ts_raises]: the value is truthy and [datetime.fromisoformat], or the
      subtraction from [datetime.now()], raises [ValueError] or [TypeError]
      (text that is no ISO date, a number, a date with a UTC offset);
    - [ts_naive t]: the ISO text of the naive datetime [t].
    [set] writes [datetime.now().isoformat()], which [fromisoformat] reads
    back as the same datetime. *)
Inductive timestamp_field : Type :=
| ts_falsy
| ts_raises
| ts_naive (t : Z).

(** [timedelta(days=d)] in microseconds *)
Definition timedelta_days (d : Z) : Z := d * 86400000000.

Record precision_info : Type := {
  name : string;
  accuracy : string;
  description : string
}.

(** The class attribute [PRECISION_LEVELS] *)
Definition PRECISION_LEVELS (p : Z) : option precision_info :=
  if p =? 3 then Some {| name := "3 Dezimalstellen"; accuracy := "~111m";
                         description := "Stadtteile/große Bereiche" |}
  else if p =? 4 then Some {| name := "4 Dezimalstellen"; accuracy := "~11m";
                              description := "Straßenabschnitte" |}
  else if p =? 5 then Some {| name := "5 Dezimalstellen"; accuracy := "~1m";
                              description := "Gebäude (Standard)" |}
  else if p =? 6 then Some {| name := "6 Dezimalstellen"; accuracy := "~0.1m";
                              description := "Exakte Position" |}
  else if p =? 7 then Some {| name := "7 Dezimalstellen"; accuracy := "~0.01m";
                              description := "Maximale Genauigkeit" |}
  else None.

Definition default_precision_info : precision_info :=
  {| name := "5 Dezimalstellen"; accuracy := "~1m";
     description := "Gebäude (Standard)" |}.

Section WithRuntime.
Context {R : PyRuntime}.

(** One value of [cache_data] *)
Record CacheEntry : Type := {
  timestamp : timestamp_field;
  coordinates : float * float;
  entry_precision : Z;
  (** [entry.get('location_data')]: [None] when the key is absent *)
  location_data : option LocationRecord
}.

(** The object.  [saved] lists what [save_cache] was asked to write, one
    snapshot of [cache_data] per call, the latest first. *)
Record GeocodingCache : Type := {
  cache_file : string;
  cache_data : gmap string CacheEntry;
  cache_max_age_days : Z;
  precision : Z;
  saved : list (gmap string CacheEntry)
}.

Definition with_cache_data (self : GeocodingCache) (d : gmap string CacheEntry)
  : GeocodingCache :=
  {| cache_file := cache_file self; cache_data := d;
     cache_max_age_days := cache_max_age_days self;
     precision := precision self; saved := saved self |}.

Definition set_precision (self : GeocodingCache) (p : Z) : GeocodingCache :=
  match PRECISION_LEVELS p with
  | Some _ =>
      {| cache_file := cache_file self; cache_data := cache_data self;
         cache_max_age_days := cache_max_age_days self;
         precision := p; saved := saved self |}
  | None => self
  end.

Definition set_max_age_days (self : GeocodingCache) (days : Z) : GeocodingCache :=
  if days >? 0 then
    {| cache_file := cache_file self; cache_data := cache_data self;
       cache_max_age_days := days;
       precision := precision self; saved := saved self |}
  else self.

Definition get_precision_info (self : GeocodingCache) : precision_info :=
  match PRECISION_LEVELS (precision self) with
  | Some i => i
  | None => default_precision_info
  end.

Definition _generate_cache_key (self : GeocodingCache) (lat lon : float) : string :=
  let lat_rounded := round_ lat (precision self) in
  let lon_rounded := round_ lon (precision self) in
  let key := float_str lat_rounded +:+ "," +:+ float_str lon_rounded in
  md5_hexdigest key.

(** The write itself may fail with [IOError]; the method prints a warning
    and returns normally either way. *)
Definition save_cache (self : GeocodingCache) : GeocodingCache :=
  {| cache_file := cache_file self; cache_data := cache_data self;
     cache_max_age_days := cache_max_age_days self;
     precision := precision self;
     saved := cache_data self :: saved self |}.

Definition get (self : GeocodingCache) (now : Z) (lat lon : float)
  : option LocationRecord * GeocodingCache :=
  let cache_key := _generate_cache_key self lat lon in
  match cache_data self !! cache_key with
  | None => (None, self)
  | Some cache_entry =>
      match timestamp cache_entry with
      | ts_falsy => (None, self)
      | ts_raises => (None, self)
      | ts_naive ts =>
          let age := now - ts in
          if age >? timedelta_days (cache_max_age_days self) then (None, self)
          else (location_data cache_entry, self)
      end
  end.

Definition set (self : GeocodingCache) (now : Z) (lat lon : float)
  (location : LocationRecord) : GeocodingCache :=
  let cache_key := _generate_cache_key self lat lon in
  let entry :=
    {| timestamp := ts_naive now;
       coordinates := (round_ lat (precision self), round_ lon (precision self));
       entry_precision := precision self;
       location_data := Some location |} in
  save_cache (with_cache_data self (<[cache_key := entry]> (cache_data self))).

(** The body of the first loop of [clear_old_entries] *)
Definition collect_old (now max_age_days : Z) (keys_to_delete : list string)
  (item : string * CacheEntry) : list string :=
  match timestamp item.2 with
  | ts_falsy => keys_to_delete
  | ts_raises => keys_to_delete ++ [item.1]
  | ts_naive ts =>
      let age := now - ts in
      if age >? timedelta_days max_age_days then keys_to_delete ++ [item.1]
      else keys_to_delete
  end.

Definition clear_old_entries (self : GeocodingCache) (now : Z)
  (max_age_days : option Z) : nat * GeocodingCache :=
  let max_age_days :=
    match max_age_days with
    | None => cache_max_age_days self
    | Some d => d
    end in
  let keys_to_delete :=
    foldl (collect_old now max_age_days) [] (map_to_list (cache_data self)) in
  let self :=
    with_cache_data self
      (foldl (fun d key => delete key d) (cache_data self) keys_to_delete) in
  let self :=
    match keys_to_delete with
    | [] => self
    | _ :: _ => save_cache self
    end in
  (length keys_to_delete, self).

(** The dict returned by [get_stats] *)
Record CacheStats : Type := {
  total : nat;
  valid : nat;
  expired : nat;
  stats_cache_file : string;
  max_age_days : Z;
  stats_precision : Z;
  precision_name : string;
  precision_accuracy : string
}.

(** The body of the loop of [get_stats], on the pair
    [(valid_entries, expired_entries)] *)
Definition count_entry (now max_age : Z) (acc : nat * nat) (entry : CacheEntry)
  : nat * nat :=
  match timestamp entry with
  | ts_falsy => acc
  | ts_raises => (acc.1, S acc.2)
  | ts_naive ts =>
      let age := now - ts in
      if age <=? timedelta_days max_age then (S acc.1, acc.2)
      else (acc.1, S acc.2)
  end.

Definition get_stats (self : GeocodingCache) (now : Z)
  : CacheStats * GeocodingCache :=
  let total_entries := size (cache_data self) in
  let counts :=
    foldl (count_entry now (cache_max_age_days self)) (0%nat, 0%nat)
          (map_to_list (cache_data self)).*2 in
  let info := get_precision_info self in
  ({| total := total_entries;
      valid := counts.1;
      expired := counts.2;
      stats_cache_file := cache_file self;
      max_age_days := cache_max_age_days self;
      stats_precision := precision self;
      precision_name := name info;
      precision_accuracy := accuracy info |}, self).

(** What [load_cache] finds at [cache_file]: no file; a file that [open]
    or [json.load] rejects with [IOError] or [JSONDecodeError]; or a JSON
    object, read as the dict of its entries. *)
Inductive stored_file : Type :=
| NoFile
| BadFile
| JsonFile (d : gmap string CacheEntry).



(** [ConfigDialog.clear_all_cache] (dialogs.py), once confirmed:
    [self.cache.cache_data = {}] and [self.cache.save_cache()] *)
Definition clear_all_cache (self : GeocodingCache) : GeocodingCache :=
  save_cache (with_cache_data self ∅).

End WithRuntime.

End Cache.

(** ** worker.py *)

Module Worker.
Import Cache.

(** What [subprocess.run(..., capture_output=True, text=True, timeout=...)]
    does: it returns a completed process, whatever its exit status (the code
    never passes [check=True]), or raises. *)
Inductive proc_result : Type :=
| Completed (returncode : Z) (stdout : string)
| TimeoutExpired
| FileNotFoundError (msg : string)
| OtherException (msg : string).

(** [image_path.with_suffix(image_path.suffix + '.xmp')] at the start of
    [get_gps_data]: no such file, a file whose modification time is read and
    compared ([xmp_newer] is [xmp_mtime > image_mtime]), or a [stat] that
    raises [OSError]. *)
Inductive sidecar_state : Type :=
| NoSidecar
| Sidecar (xmp_newer : bool)
| StatRaises (msg : string).

(** The seven counters of [self.stats] *)
Record Stats : Type := {
  cache_hits : nat;
  api_calls : nat;
  total_processed : nat;
  skipped_already_tagged : nat;
  skipped_no_gps : nat;
  metadata_written : nat;
  metadata_unchanged : nat
}.

Definition fresh_stats : Stats :=
  {| cache_hits := 0; api_calls := 0; total_processed := 0;
     skipped_already_tagged := 0; skipped_no_gps := 0;
     metadata_written := 0; metadata_unchanged := 0 |}.

(** The return statement at which [process_image] ends *)
Inductive outcome : Type :=
| SKIPPED_ALREADY_TAGGED
| SKIPPED_NO_GPS
| NO_LOCATION_FOUND
| UNCHANGED
| WRITTEN.

(** Either a value or an exception that leaves the method *)
Inductive result (A : Type) : Type :=
| Ok (a : A)
| Raise (msg : string).
Arguments Ok {A} a.
Arguments Raise {A} msg.

Section WithRuntime.
Context {R : PyRuntime}.

(** What [requests.get(url, params, timeout=10)], [raise_for_status()] and
    [response.json()] do together: one of them raises, or the body is a JSON
    object.  [features] is [None] when the object has no key ['features'];
    a feature is [None] when it has no key ['properties']. *)
Inductive http_result : Type :=
| RequestException (msg : string)
| HttpOtherException (msg : string)
| Response (features : option (list (option (gmap string string)))).

(** The lines passed to [self.log.emit] *)
Inductive log_line : Type :=
| LSearching                       (* 'Suche nach Bilddateien...' *)
| LNoFiles                         (* 'Keine Bilddateien gefunden.' *)
| LFound (n : nat)                 (* '{n} Bilddatei(en) gefunden.' *)
| LPrecision (info : precision_info) (* 'Cache-Genauigkeit: ...' *)
| LMaxAge (days : Z)               (* 'Cache-Lebensdauer: {days} Tage' *)
| LSkipMode                        (* 'Bereits getaggte Bilder werden übersprungen' *)
| LRule                            (* a rule of 60 characters *)
| LCancelled                       (* 'Abgebrochen.' *)
| LStatsHeader                     (* a rule and 'Statistiken:' *)
| LStatFound (n : nat)             (* 'Gefundene Dateien: {n}' *)
| LStatProcessed (n : nat)         (* 'Verarbeitete Dateien: {n}' *)
| LStatSkippedTagged (n : nat)     (* 'Übersprungen (bereits getaggt): {n}' *)
| LStatSkippedNoGps (n : nat)      (* 'Übersprungen (keine GPS): {n}' *)
| LStatCacheHits (n : nat)         (* 'Cache-Treffer: {n}' *)
| LStatApiCalls (n : nat)          (* 'API-Aufrufe: {n}' *)
| LStatWritten (n : nat)           (* 'Metadaten geschrieben: {n}' *)
| LStatUnchanged (n : nat)         (* 'Metadaten unverändert: {n}' *)
| LStatHitRate (hits processed : nat) (* 'Cache-Trefferquote: {rate:.1f}%' *)
| LStatsFooter                     (* a rule *)
| LDone                            (* 'Fertig!' *)
| LImage (name : string)           (* the name of the file *)
| LAlreadyTagged                   (* 'Bereits getaggt' *)
| LXmpNewer                        (* 'XMP-Sidecar ist neuer' *)
| LReadTimeout                     (* 'Timeout beim Lesen' *)
| LExiftoolMissing                 (* 'ExifTool nicht gefunden' *)
| LFailure (msg : string)          (* 'Fehler: {msg}' *)
| LNoGps                           (* 'Keine GPS-Daten' *)
| LGps (lat lon : float)           (* 'GPS: {lat:.6f}, {lon:.6f}' *)
| LCacheHit                        (* 'Cache-Treffer' *)
| LApiQuery                        (* 'Photon API Abfrage...' *)
| LApiError (msg : string)         (* 'API Fehler: {msg}' *)
| LNoLocation                      (* 'Keine Ortsdaten gefunden' *)
| LLocation (location : LocationRecord) (* the summary built from the record *)
| LUnchanged                       (* 'Daten bereits korrekt' *)
| LWritten                         (* 'Metadaten geschrieben' *)
| LSidecarUpdated                  (* 'XMP-Sidecar aktualisiert' *)
| LExiftoolError                   (* 'ExifTool Fehler' *)
| LWriteTimeout.                   (* 'Timeout' *)

(** The four command lines given to [subprocess.run].  The arguments of a
    write are computed from the record and the path alone. *)
Inductive command : Type :=
| ReadCity (path : string)
| ReadGps (path : string)
| ReadPlace (path : string)
| WriteTags (path : string) (location : LocationRecord).

(** What the worker does to the world around it, in order: the signals it
    emits, the processes it runs, the requests it sends, and its reads of
    [self.should_stop], the flag that the window sets through [stop]. *)
Inductive event : Type :=
| Log (line : log_line)
| Progress (current total : nat)
| CacheStatsSignal (s : Stats)
| Finished
| Error (msg : string)
| ReadShouldStop (value : bool)
| Subprocess (cmd : command)
| HttpGet (lat lon : float).

(** One discovered file with what the world answers while it is processed:
    each answer is consulted at the call that asks for it, at most once. *)
Record ImageFile : Type := {
  path : string;
  file_name : string;
  city_probe : proc_result;
  sidecar : sidecar_state;
  gps_probe : proc_result;
  now_get : Z;
  geocoder : http_result;
  now_set : Z;
  place_probe : proc_result;
  write_run : proc_result;
  sidecar_at_write : bool;
  sidecar_write_run : proc_result
}.

Definition xmp_path (image : ImageFile) : string := path image +:+ ".xmp".

(** The object: the fields that [run] and its callees read or write, and
    the trace of its effects. *)
Record GeocodingWorker : Type := {
  cache : GeocodingCache;
  skip_existing : bool;
  stats : Stats;
  trace : list event
}.

(** A method: the object after the call and its value or exception *)
Definition M (A : Type) : Type := GeocodingWorker -> result A * GeocodingWorker.

Definition ret {A : Type} (a : A) : M A := fun self => (Ok a, self).

Definition raise {A : Type} (msg : string) : M A := fun self => (Raise msg, self).

Definition bind {A B : Type} (m : M A) (k : A -> M B) : M B :=
  fun self =>
    match m self with
    | (Ok a, self') => k a self'
    | (Raise msg, self') => (Raise msg, self')
    end.

Notation "'let*' x ':=' m 'in' k" := (bind m (fun x => k))
  (at level 10, x pattern, m at level 100, k at level 200).
Notation "m '>>' k" := (bind m (fun _ => k))
  (at level 100, k at level 200, right associativity).

Definition emit (e : event) : M unit :=
  fun self =>
    (Ok tt, {| cache := cache self; skip_existing := skip_existing self;
               stats := stats self; trace := trace self ++ [e] |}).

Definition log (line : log_line) : M unit := emit (Log line).

Definition update_stats (f : Stats -> Stats) : M unit :=
  fun self =>
    (Ok tt, {| cache := cache self; skip_existing := skip_existing self;
               stats := f (stats self); trace := trace self |}).

Definition read_stats : M Stats := fun self => (Ok (stats self), self).

Definition read_skip_existing : M bool := fun self => (Ok (skip_existing self), self).

Definition read_cache : M GeocodingCache := fun self => (Ok (cache self), self).

(** [subprocess.run]: the call is recorded and the world's answer returned *)
Definition subprocess_run (cmd : command) (answer : proc_result) : M proc_result :=
  emit (Subprocess cmd) >> ret answer.

(** [self.cache.get(lat, lon)] *)
Definition cache_get (now : Z) (lat lon : float) : M (option LocationRecord) :=
  fun self =>
    let '(found, c) := Cache.get (cache self) now lat lon in
    (Ok found, {| cache := c; skip_existing := skip_existing self;
                  stats := stats self; trace := trace self |}).

(** [self.cache.set(lat, lon, location_data)] *)
Definition cache_set (now : Z) (lat lon : float) (location : LocationRecord) : M unit :=
  fun self =>
    (Ok tt, {| cache := Cache.set (cache self) now lat lon location;
               skip_existing := skip_existing self;
               stats := stats self; trace := trace self |}).

Definition incr_cache_hits (s : Stats) : Stats :=
  {| cache_hits := S (cache_hits s); api_calls := api_calls s;
     total_processed := total_processed s;
     skipped_already_tagged := skipped_already_tagged s;
     skipped_no_gps := skipped_no_gps s;
     metadata_written := metadata_written s;
     metadata_unchanged := metadata_unchanged s |}.

Definition incr_api_calls (s : Stats) : Stats :=
  {| cache_hits := cache_hits s; api_calls := S (api_calls s);
     total_processed := total_processed s;
     skipped_already_tagged := skipped_already_tagged s;
     skipped_no_gps := skipped_no_gps s;
     metadata_written := metadata_written s;
     metadata_unchanged := metadata_unchanged s |}.

Definition incr_total_processed (s : Stats) : Stats :=
  {| cache_hits := cache_hits s; api_calls := api_calls s;
     total_processed := S (total_processed s);
     skipped_already_tagged := skipped_already_tagged s;
     skipped_no_gps := skipped_no_gps s;
     metadata_written := metadata_written s;
     metadata_unchanged := metadata_unchanged s |}.

Definition incr_skipped_already_tagged (s : Stats) : Stats :=
  {| cache_hits := cache_hits s; api_calls := api_calls s;
     total_processed := total_processed s;
     skipped_already_tagged := S (skipped_already_tagged s);
     skipped_no_gps := skipped_no_gps s;
     metadata_written := metadata_written s;
     metadata_unchanged := metadata_unchanged s |}.

Definition incr_skipped_no_gps (s : Stats) : Stats :=
  {| cache_hits := cache_hits s; api_calls := api_calls s;
     total_processed := total_processed s;
     skipped_already_tagged := skipped_already_tagged s;
     skipped_no_gps := S (skipped_no_gps s);
     metadata_written := metadata_written s;
     metadata_unchanged := metadata_unchanged s |}.

Definition incr_metadata_written (s : Stats) : Stats :=
  {| cache_hits := cache_hits s; api_calls := api_calls s;
     total_processed := total_processed s;
     skipped_already_tagged := skipped_already_tagged s;
     skipped_no_gps := skipped_no_gps s;
     metadata_written := S (metadata_written s);
     metadata_unchanged := metadata_unchanged s |}.

Definition incr_metadata_unchanged (s : Stats) : Stats :=
  {| cache_hits := cache_hits s; api_calls := api_calls s;
     total_processed := total_processed s;
     skipped_already_tagged := skipped_already_tagged s;
     skipped_no_gps := skipped_no_gps s;
     metadata_written := metadata_written s;
     metadata_unchanged := S (metadata_unchanged s) |}.

(** *** The metadata adapter *)

Definition check_existing_location_data (image : ImageFile) : M bool :=
  let* answer := subprocess_run (ReadCity (path image)) (city_probe image) in
  match answer with
  | Completed _ stdout =>
      let output := Str.strip stdout in
      ret (Str.truthy output)
  | TimeoutExpired | FileNotFoundError _ | OtherException _ => ret false
  end.

(** [float(line.split(':')[1].strip())]; [None] stands for the [IndexError]
    or [ValueError] that the loop passes over *)
Definition parse_gps_value (line : string) : option float :=
  match Str.split ":" line with
  | _ :: value :: _ => parse_float (Str.strip value)
  | _ => None
  end.

(** The body of the loop over the lines of the output, on [(lat, lon)] *)
Definition scan_gps_line (acc : option float * option float) (line : string)
  : option float * option float :=
  if Str.contains "GPS Latitude" line then
    match parse_gps_value line with
    | Some v => (Some v, acc.2)
    | None => acc
    end
  else if Str.contains "GPS Longitude" line then
    match parse_gps_value line with
    | Some v => (acc.1, Some v)
    | None => acc
    end
  else acc.

Definition get_gps_data (image : ImageFile) : M (option (float * float)) :=
  let* use_xmp :=
    match sidecar image with
    | NoSidecar => ret false
    | StatRaises msg => raise msg
    | Sidecar xmp_newer =>
        if xmp_newer then log LXmpNewer >> ret true else ret false
    end in
  let file_to_read := if use_xmp then xmp_path image else path image in
  let* answer := subprocess_run (ReadGps file_to_read) (gps_probe image) in
  match answer with
  | Completed returncode stdout =>
      if negb (returncode =? 0) then ret None
      else
        match foldl scan_gps_line (None, None) (Str.split Str.LF stdout) with
        | (Some lat, Some lon) => ret (Some (lat, lon))
        | _ => ret None
        end
  | TimeoutExpired => log LReadTimeout >> ret None
  | FileNotFoundError _ => log LExiftoolMissing >> ret None
  | OtherException msg => log (LFailure msg) >> ret None
  end.

(** [d.get(key, '')] *)
Definition dict_get (d : LocationRecord) (key : string) : string :=
  match d !! key with
  | Some v => v
  | None => ""
  end.

(** [lines[i] if len(lines) > i else ''] *)
Definition line_at (lines : list string) (i : nat) : string :=
  match lines !! i with
  | Some l => l
  | None => ""
  end.

Definition compare_location_data (image : ImageFile) (new_location : LocationRecord)
  : M bool :=
  let* answer := subprocess_run (ReadPlace (path image)) (place_probe image) in
  match answer with
  | Completed _ stdout =>
      let lines := Str.split Str.LF (Str.strip stdout) in
      let existing_city := line_at lines 0 in
      let existing_state := line_at lines 1 in
      let existing_country := line_at lines 2 in
      let new_city := dict_get new_location "city" in
      let new_state := dict_get new_location "state" in
      let new_country := dict_get new_location "country" in
      if String.eqb existing_city new_city
         && String.eqb existing_state new_state
         && String.eqb existing_country new_country
      then ret false
      else ret true
  | TimeoutExpired | FileNotFoundError _ | OtherException _ => ret true
  end.

Definition write_location_data (image : ImageFile) (location : LocationRecord)
  : M unit :=
  let* answer :=
    subprocess_run (WriteTags (path image) location) (write_run image) in
  match answer with
  | Completed returncode _ =>
      if returncode =? 0 then
        log LWritten >>
        update_stats incr_metadata_written >>
        if sidecar_at_write image then
          let* mirrored :=
            subprocess_run (WriteTags (xmp_path image) location)
                           (sidecar_write_run image) in
          match mirrored with
          | Completed _ _ => log LSidecarUpdated
          | TimeoutExpired => log LWriteTimeout
          | FileNotFoundError msg | OtherException msg => log (LFailure msg)
          end
        else ret tt
      else log LExiftoolError
  | TimeoutExpired => log LWriteTimeout
  | FileNotFoundError msg | OtherException msg => log (LFailure msg)
  end.

(** [location.get(key)] where the code tests it for truth: the value when
    the key is present with a text that is not empty *)
Definition field (location : LocationRecord) (key : string) : option string :=
  match location !! key with
  | Some v => if Str.truthy v then Some v else None
  | None => None
  end.

(** The tags of one field: [args.extend([...])] under [if location.get(key)] *)
Definition tags_of (value : option string) (tags : list string) : list string :=
  match value with
  | Some v => (fun tag => tag +:+ v) <$> tags
  | None => []
  end.

(** The list [args] that [write_location_data] builds and hands to
    [subprocess.run]; [exiftool] is [self.config.get_exiftool_path()] and
    [upper] is [str.upper]. *)
Definition write_arguments (exiftool : string) (upper : string -> string)
  (image_path : string) (location : LocationRecord) : list string :=
  let suburb_or_district :=
    match field location "suburb" with
    | Some v => Some v
    | None => field location "district"
    end in
  let street_full :=
    match field location "street" with
    | Some street =>
        match field location "housenumber" with
        | Some number => Some (street +:+ " " +:+ number)
        | None => Some street
        end
    | None => None
    end in
  let name_as_city :=
    match field location "name", field location "city" with
    | Some name, None => Some name
    | _, _ => None
    end in
  [exiftool]
  ++ tags_of (field location "country")
       ["-IPTC:Country-PrimaryLocationName="; "-XMP:Country=";
        "-XMP-iptcExt:LocationShownCountryName="]
  ++ tags_of (upper <$> field location "countrycode")
       ["-IPTC:Country-PrimaryLocationCode="; "-XMP:CountryCode=";
        "-XMP-iptcExt:LocationShownCountryCode="]
  ++ tags_of (field location "state")
       ["-IPTC:Province-State="; "-XMP:State=";
        "-XMP-iptcExt:LocationShownProvinceState="]
  ++ tags_of (field location "county") ["-XMP-iptcExt:LocationShownCity="]
  ++ tags_of (field location "city")
       ["-IPTC:City="; "-XMP:City="; "-XMP-photoshop:City="]
  ++ tags_of suburb_or_district
       ["-IPTC:Sub-location="; "-XMP:Location=";
        "-XMP-iptcExt:LocationShownSublocation="]
  ++ tags_of street_full ["-XMP-iptcCore:Location="]
  ++ tags_of (field location "postcode") ["-XMP-photoshop:PostalCode="]
  ++ tags_of name_as_city ["-XMP-iptcExt:LocationShownCity="]
  ++ ["-overwrite_original"; "-P"; "-codedcharacterset=utf8"; image_path].

(** [xmp_args]: a copy of [args] whose last element is the sidecar *)
Definition sidecar_arguments (args : list string) (xmp : string) : list string :=
  match args with
  | [] => []
  | _ :: _ => <[Nat.pred (length args) := xmp]> args
  end.

(** *** The location resolver *)

(** The twelve keys of the record built from the first feature *)
Definition location_keys : list string :=
  ["country"; "state"; "county"; "city"; "suburb"; "district"; "street";
   "housenumber"; "postcode"; "name"; "locality"; "countrycode"].

(** [{'country': props.get('country', ''), ...}] *)
Definition location_of_properties (props : gmap string string) : LocationRecord :=
  list_to_map ((fun key => (key, dict_get props key)) <$> location_keys).

(** [if cached_data:] and [if not location:], on an optional dict *)
Definition truthy (d : option LocationRecord) : bool :=
  match d with
  | Some d => dict_truthy d
  | None => false
  end.

Definition reverse_geocode (image : ImageFile) (lat lon : float)
  : M (option LocationRecord) :=
  let* cached_data := cache_get (now_get image) lat lon in
  if truthy cached_data then
    log LCacheHit >>
    update_stats incr_cache_hits >>
    ret cached_data
  else
    log LApiQuery >>
    update_stats incr_api_calls >>
    emit (HttpGet lat lon) >>
    match geocoder image with
    | RequestException msg => log (LApiError msg) >> ret None
    | HttpOtherException msg => log (LFailure msg) >> ret None
    | Response (Some (Some props :: _)) =>
        let location_data := location_of_properties props in
        cache_set (now_set image) lat lon location_data >>
        ret (Some location_data)
    | Response (Some (None :: _)) => log (LFailure "'properties'") >> ret None
    | Response (Some []) | Response None => ret None
    end.

(** *** The pipeline *)

(** [process_image] from the test of [location] onward *)
Definition finish_image (image : ImageFile) (location : option LocationRecord)
  : M outcome :=
  if negb (truthy location) then
    log LNoLocation >> ret NO_LOCATION_FOUND
  else
    let location := default ∅ location in
    update_stats incr_total_processed >>
    log (LLocation location) >>
    let* differs := compare_location_data image location in
    if negb differs then
      log LUnchanged >>
      update_stats incr_metadata_unchanged >>
      ret UNCHANGED
    else
      write_location_data image location >>
      ret WRITTEN.

(** [self.skip_existing and self.check_existing_location_data(image_path)] *)
Definition skip_condition (image : ImageFile) : M bool :=
  let* skip := read_skip_existing in
  if skip then check_existing_location_data image else ret false.

Definition process_image (image : ImageFile) : M outcome :=
  log (LImage (file_name image)) >>
  let* tagged := skip_condition image in
  if tagged then
    log LAlreadyTagged >>
    update_stats incr_skipped_already_tagged >>
    ret SKIPPED_ALREADY_TAGGED
  else
    let* gps_data := get_gps_data image in
    match gps_data with
    | None =>
        log LNoGps >>
        update_stats incr_skipped_no_gps >>
        ret SKIPPED_NO_GPS
    | Some (lat, lon) =>
        log (LGps lat lon) >>
        let* location := reverse_geocode image lat lon in
        finish_image image location
    end.

(** [stop] sets [self.should_stop] from the thread of the window; the loop
    of [run] is the only reader.  [should_stop i] is the value that the read
    at the head of iteration [i] finds. *)
Definition read_should_stop (should_stop : nat -> bool) (i : nat) : M bool :=
  emit (ReadShouldStop (should_stop i)) >> ret (should_stop i).

(** The [for] loop of [run], from iteration [i] on; [total] is
    [len(image_files)] *)
Fixpoint run_loop (should_stop : nat -> bool) (total i : nat)
  (image_files : list ImageFile) : M unit :=
  match image_files with
  | [] => ret tt
  | image_file :: rest =>
      let* stop := read_should_stop should_stop i in
      if stop then log LCancelled
      else
        emit (Progress (i + 1) total) >>
        process_image image_file >>
        run_loop should_stop total (S i) rest
  end.

(** The statistics block logged after the loop *)
Definition log_statistics (found : nat) : M unit :=
  let* s := read_stats in
  log LStatsHeader >>
  log (LStatFound found) >>
  log (LStatProcessed (total_processed s)) >>
  log (LStatSkippedTagged (skipped_already_tagged s)) >>
  log (LStatSkippedNoGps (skipped_no_gps s)) >>
  log (LStatCacheHits (cache_hits s)) >>
  log (LStatApiCalls (api_calls s)) >>
  log (LStatWritten (metadata_written s)) >>
  log (LStatUnchanged (metadata_unchanged s)) >>
  (if Nat.ltb 0 (total_processed s)
   then log (LStatHitRate (cache_hits s) (total_processed s))
   else ret tt) >>
  log LStatsFooter.

(** The lines logged between the search and the loop *)
Definition run_prologue (image_files : list ImageFile) : M unit :=
  log (LFound (length image_files)) >>
  let* c := read_cache in
  log (LPrecision (get_precision_info c)) >>
  log (LMaxAge (cache_max_age_days c)) >>
  let* skip := read_skip_existing in
  (if skip then log LSkipMode else ret tt) >>
  log LRule.

(** What follows the loop, whether it ran to its end or was left by [break] *)
Definition run_epilogue (image_files : list ImageFile) : M unit :=
  log_statistics (length image_files) >>
  let* s := read_stats in
  emit (CacheStatsSignal s) >>
  log LDone >>
  emit Finished.

(** The body of the [try] in [run]; [image_files] is what
    [find_image_files] returned *)
Definition run_body (should_stop : nat -> bool) (image_files : list ImageFile)
  : M unit :=
  log LSearching >>
  match image_files with
  | [] => log LNoFiles >> emit Finished
  | _ :: _ =>
      run_prologue image_files >>
      run_loop should_stop (length image_files) 0 image_files >>
      run_epilogue image_files
  end.

(** [run]: [except Exception as e: self.error.emit(f'Fehler: {str(e)}')] *)
Definition run (should_stop : nat -> bool) (image_files : list ImageFile)
  (self : GeocodingWorker) : GeocodingWorker :=
  match run_body should_stop image_files self with
  | (Ok _, self') => self'
  | (Raise msg, self') => (emit (Error ("Fehler: " +:+ msg)) self').2
  end.

End WithRuntime.

End Worker.

(** ** A runtime to evaluate the definitions on

    Coordinates are decimal numbers with seven digits after the point, held
    as a count of 1e-7 degree; [round_] rounds half to even; a number prints
    as its count; the digest is the identity. *)

Module Fixture.

Definition round_half_even (x unit : Z) : Z :=
  let q := x / unit in
  let r := x mod unit in
  if 2 * r <? unit then q * unit
  else if unit <? 2 * r then (q + 1) * unit
  else if Z.even q then q * unit else (q + 1) * unit.

Definition round_fixed (x ndigits : Z) : Z :=
  if (ndigits <? 0) || (7 <? ndigits) then x
  else round_half_even x (10 ^ (7 - ndigits)).

Definition digits (s : string) : option Z :=
  match s with
  | EmptyString => None
  | _ => (fun u => Z.of_N (N.of_uint u)) <$> DecimalString.NilEmpty.uint_of_string s
  end.

(** Text such as [48.85837] or [-0.5], with at most seven decimals *)
Definition parse_fixed (s : string) : option Z :=
  let '(negative, body) :=
    match s with
    | String "-" rest => (true, rest)
    | _ => (false, s)
    end in
  let magnitude :=
    match Str.split "." body with
    | [whole] => (fun w => w * 10 ^ 7) <$> digits whole
    | [whole; frac] =>
        let n := Z.of_nat (String.length frac) in
        if 7 <? n then None
        else
          match digits whole, digits frac with
          | Some w, Some f => Some (w * 10 ^ 7 + f * 10 ^ (7 - n))
          | _, _ => None
          end
    | _ => None
    end in
  (fun m => if negative then - m else m) <$> magnitude.

Definition runtime : PyRuntime :=
  {| float := Z;
     round_ := round_fixed;
     float_str := pretty;
     md5_hexdigest := fun key => key;
     parse_float := parse_fixed |}.

End Fixture.

(** ** Sample data on the fixture runtime *)

Module Samples.
Import Cache Worker.
#[local] Existing Instance Fixture.runtime.

(** 48.85837 and 2.29448 degrees *)
Definition lat_paris : float := 488583700.
Definition lon_paris : float := 22944800.

Definition paris : LocationRecord :=
  <["city" := "Paris"]> (<["state" := "Ile-de-France"]> {["country" := "France"]}).


Definition cache_of (d : gmap string CacheEntry) : GeocodingCache :=
  {| cache_file := "geocoding_cache.json"; cache_data := d;
     cache_max_age_days := 30; precision := 5; saved := [] |}.


(** One minute and one day in microseconds *)
Definition minute : Z := 60000000.
Definition day : Z := 86400000000.

(** The store after one [set] at time 0 *)
Definition cache_with_paris : GeocodingCache :=
  set (cache_of ∅) 0 lat_paris lon_paris paris.



(** Lines of output, each ended by a line feed *)
Fixpoint output (lines : list string) : string :=
  match lines with
  | [] => ""
  | l :: rest => l +:+ String Str.LF (output rest)
  end.

Definition gps_output : string :=
  output ["GPS Latitude                    : 48.85837";
          "GPS Longitude                   : 2.29448"].

Definition photo (name : string) (city gps place : proc_result)
  (http : http_result) (t_get t_set : Z) : ImageFile :=
  {| path := "/photos/" +:+ name; file_name := name;
     city_probe := city; sidecar := NoSidecar; gps_probe := gps;
     now_get := t_get; geocoder := http; now_set := t_set;
     place_probe := place;
     write_run := Completed 0 (output ["    1 image files updated"]);
     sidecar_at_write := false;
     sidecar_write_run := Completed 0 "" |}.

(** A photo of Paris that carries no place yet, and the service's answer *)
Definition untagged (name : string) (t : Z) : ImageFile :=
  photo name (Completed 0 "") (Completed 0 gps_output) (Completed 0 "")
        (Response (Some [Some paris])) t t.

(** A photo that carries a city already *)
Definition tagged (name : string) : ImageFile :=
  photo name (Completed 0 (output ["Paris"])) (Completed 0 gps_output)
        (Completed 0 (output ["Paris"; "Ile-de-France"; "France"]))
        (Response (Some [Some paris])) 0 0.

(** A photo without GPS fields *)
Definition no_gps (name : string) : ImageFile :=
  photo name (Completed 0 "") (Completed 0 "") (Completed 0 "")
        (Response None) 0 0.

(** A photo for which the service cannot be reached *)
Definition unreachable (t : Z) : ImageFile :=
  photo "IMG_0001.jpg" (Completed 0 "") (Completed 0 gps_output) (Completed 0 "")
        (RequestException "ConnectionError") t t.


Definition worker_on (c : GeocodingCache) (skip : bool) : GeocodingWorker :=
  {| cache := c; skip_existing := skip; stats := fresh_stats; trace := [] |}.

(** Five files and a flag that is set while the second is processed *)
Definition five_files : list ImageFile :=
  [tagged "1.jpg"; no_gps "2.jpg"; untagged "3.jpg" 0; no_gps "4.jpg"; tagged "5.jpg"].

Definition stop_after_two : nat -> bool := fun i => Nat.leb 2 i.

End Samples.

(** * Properties *)

Import Cache Worker.

(** ** Vocabulary of the statements *)

Section Vocabulary.
Context {R : PyRuntime}.

(** The rule of [get]: an entry found under the key is handed out when its
    timestamp is the ISO text of a naive datetime at most [d] days old. *)
Definition fresh (now d : Z) (e : CacheEntry) : bool :=
  match timestamp e with
  | ts_naive t => now - t <=? timedelta_days d
  | ts_falsy | ts_raises => false
  end.

(** An entry that carries a timestamp and is not [fresh]: the timestamp does
    not parse, or it is more than [d] days old. *)
Definition stale (now d : Z) (e : CacheEntry) : bool :=
  match timestamp e with
  | ts_naive t => now - t >? timedelta_days d
  | ts_raises => true
  | ts_falsy => false
  end.



(** The number of entries of a store that satisfy a test *)
Definition count_entries (f : CacheEntry -> bool) (d : gmap string CacheEntry) : nat :=
  size (filter (fun item : string * CacheEntry => f item.2 = true) d).

(** Kinds of events *)
Definition is_http_get (e : event) : bool :=
  match e with
  | HttpGet _ _ => true
  | _ => false
  end.

Definition is_finished (e : event) : bool :=
  match e with
  | Finished => true
  | _ => false
  end.

Definition is_error (e : event) : bool :=
  match e with
  | Error _ => true
  | _ => false
  end.

Definition is_stop_read (e : event) : bool :=
  match e with
  | ReadShouldStop _ => true
  | _ => false
  end.

Definition is_progress (e : event) : bool :=
  match e with
  | Progress _ _ => true
  | _ => false
  end.

Definition is_gps_read (e : event) : bool :=
  match e with
  | Subprocess (ReadGps _) => true
  | _ => false
  end.

(** The events that the processing of one file can cause *)
Definition is_file_event (e : event) : bool :=
  match e with
  | Log _ | Subprocess _ | HttpGet _ _ => true
  | _ => false
  end.

Definition count_events (f : event -> bool) (events : list event) : nat :=
  length (filter (fun e => f e = true) events).

(** The number of HTTP requests in a list of events *)
Definition http_requests (events : list event) : nat := count_events is_http_get events.

(** A method that only adds events of one kind to the trace *)
Definition appends (f : event -> bool) {A : Type} (m : M A) : Prop :=
  forall self, exists events,
    trace (m self).2 = trace self ++ events
    /\ Forall (fun e => f e = true) events.

(** A method that leaves the counters, the cache and the skip option alone *)
Definition silent {A : Type} (m : M A) : Prop :=
  forall self,
    stats (m self).2 = stats self
    /\ cache (m self).2 = cache self
    /\ skip_existing (m self).2 = skip_existing self.



(** The events of [run_epilogue] for [found] files and counters [s] *)
Definition epilogue_events (found : nat) (s : Stats) : list event :=
  [Log LStatsHeader; Log (LStatFound found);
   Log (LStatProcessed (total_processed s));
   Log (LStatSkippedTagged (skipped_already_tagged s));
   Log (LStatSkippedNoGps (skipped_no_gps s));
   Log (LStatCacheHits (cache_hits s));
   Log (LStatApiCalls (api_calls s));
   Log (LStatWritten (metadata_written s));
   Log (LStatUnchanged (metadata_unchanged s))]
  ++ (if Nat.ltb 0 (total_processed s)
      then [Log (LStatHitRate (cache_hits s) (total_processed s))]
      else [])
  ++ [Log LStatsFooter; CacheStatsSignal s; Log LDone; Finished].

(** A method that returns normally from every state *)
Definition completes {A : Type} (m : M A) : Prop :=
  forall self, exists a w, m self = (Ok a, w).

(** No [stat] of the file or of its sidecar raises *)
Definition stat_succeeds (image : ImageFile) : Prop :=
  match sidecar image with
  | StatRaises _ => False
  | NoSidecar | Sidecar _ => True
  end.

(** The flag is never set *)
Definition never : nat -> bool := fun _ => false.

(** A call of a method of the cache, or of the dialog's "clear all" *)
Inductive cache_call : Type :=
| CallGet (now : Z) (lat lon : float)
| CallSet (now : Z) (lat lon : float) (location : LocationRecord)
| CallClearOldEntries (now : Z) (max_age_days : option Z)
| CallGetStats (now : Z)
| CallSetPrecision (p : Z)
| CallSetMaxAgeDays (days : Z)
| CallClearAll.

(** The object after a call *)
Definition after_call (self : GeocodingCache) (c : cache_call) : GeocodingCache :=
  match c with
  | CallGet now lat lon => (get self now lat lon).2
  | CallSet now lat lon location => set self now lat lon location
  | CallClearOldEntries now max_age_days => (clear_old_entries self now max_age_days).2
  | CallGetStats now => (get_stats self now).2
  | CallSetPrecision p => set_precision self p
  | CallSetMaxAgeDays days => set_max_age_days self days
  | CallClearAll => clear_all_cache self
  end.

(** What the cache file holds after the calls, given what it held before
    and that every write of [save_cache] went through *)
Definition on_disk (before : stored_file) (self : GeocodingCache) : stored_file :=
  match saved self with
  | latest :: _ => JsonFile latest
  | [] => before
  end.


(** A configuration that the setters accept *)
Definition valid_settings (self : GeocodingCache) : Prop :=
  is_Some (PRECISION_LEVELS (precision self)) /\ 0 < cache_max_age_days self.


(** The lines that [get_gps_data] reads a latitude from, and those it
    reads a longitude from (the [elif]) *)
Definition is_latitude_line (line : string) : bool :=
  Str.contains "GPS Latitude" line.

Definition is_longitude_line (line : string) : bool :=
  negb (Str.contains "GPS Latitude" line) && Str.contains "GPS Longitude" line.

(** The value of the last line that parses *)
Definition last_value (lines : list string) : option float :=
  last (omap parse_gps_value lines).

(** The file that [get_gps_data] reads: the sidecar when it is newer *)
Definition gps_file (image : ImageFile) : string :=
  match sidecar image with
  | Sidecar true => xmp_path image
  | Sidecar false | NoSidecar | StatRaises _ => path image
  end.

(** What [get_gps_data] makes of the answers of the world: the values of
    the last latitude line and of the last longitude line that parse, when
    the tool exits with status 0 *)
Definition gps_reading (image : ImageFile) : result (option (float * float)) :=
  match sidecar image with
  | StatRaises msg => Raise msg
  | NoSidecar | Sidecar _ =>
      match gps_probe image with
      | Completed returncode stdout =>
          if returncode =? 0 then
            let lines := Str.split Str.LF stdout in
            match last_value (filter (fun l => is_latitude_line l = true) lines),
                  last_value (filter (fun l => is_longitude_line l = true) lines) with
            | Some lat, Some lon => Ok (Some (lat, lon))
            | _, _ => Ok None
            end
          else Ok None
      | TimeoutExpired | FileNotFoundError _ | OtherException _ => Ok None
      end
  end.


(** The four counters of which every processed file raises one *)
Definition visits (s : Stats) : nat :=
  (skipped_already_tagged s + skipped_no_gps s + cache_hits s + api_calls s)%nat.

Definition is_write (e : event) : bool :=
  match e with
  | Subprocess (WriteTags _ _) => true
  | _ => false
  end.

Definition is_city_read (e : event) : bool :=
  match e with
  | Subprocess (ReadCity _) => true
  | _ => false
  end.

(** The events of a file after the probe for a city *)
Definition is_late_file_event (e : event) : bool :=
  is_file_event e && negb (is_city_read e).

(** The events of a file other than a write *)
Definition is_read_event (e : event) : bool :=
  is_file_event e && negb (is_write e).

(** The events that the loop of [run] can cause *)
Definition is_loop_event (e : event) : bool :=
  is_file_event e || is_stop_read e || is_progress e.

(** A method whose HTTP requests are all counted in api_calls *)
Definition metered {A : Type} (m : M A) : Prop :=
  forall self, exists events,
    trace (m self).2 = trace self ++ events
    /\ api_calls (stats (m self).2)
       = (api_calls (stats self) + http_requests events)%nat.

(** How counters [s'] stand to earlier counters [s] of the same worker:
    none has gone down, what was added to metadata_written and
    metadata_unchanged is covered by what was added to total_processed, and
    that by what was added to cache_hits and api_calls. *)
Definition counted_after (s s' : Stats) : Prop :=
  (cache_hits s <= cache_hits s')%nat
  /\ (api_calls s <= api_calls s')%nat
  /\ (total_processed s <= total_processed s')%nat
  /\ (skipped_already_tagged s <= skipped_already_tagged s')%nat
  /\ (skipped_no_gps s <= skipped_no_gps s')%nat
  /\ (metadata_written s <= metadata_written s')%nat
  /\ (metadata_unchanged s <= metadata_unchanged s')%nat
  /\ (metadata_written s' + metadata_unchanged s' + total_processed s
      <= total_processed s' + metadata_written s + metadata_unchanged s)%nat
  /\ (total_processed s' + cache_hits s + api_calls s
      <= cache_hits s' + api_calls s' + total_processed s)%nat.

(** One if the method raised, zero if it returned *)
Definition raised {A : Type} (r : result A) : nat :=
  match r with
  | Raise _ => 1
  | Ok _ => 0
  end.

(** The two signals that end a run *)
Definition is_terminal (e : event) : bool := is_finished e || is_error e.

(** The progress signals of files [i + 1] to [i + m] of [total] *)
Definition progress_signals (total i m : nat) : list event :=
  (fun j => Progress (j + 1) total) <$> seq i m.

End Vocabulary.

(** ** Facts about the cache *)

Section CacheFacts.
Context {R : PyRuntime}.
Implicit Types (d : gmap string CacheEntry) (e : CacheEntry) (f : CacheEntry -> bool).


Lemma size_filter_items (P : string * CacheEntry -> Prop)
  `{!forall x, Decision (P x)} d :
  size (filter P d) = length (filter P (map_to_list d)).
Proof.
  rewrite map_filter_alt, <- length_map_to_list.
  apply Permutation_length, map_to_list_to_map.
  apply NoDup_fmap_fst.
  - intros k x y [_ Hx%elem_of_map_to_list]%list_elem_of_filter
                  [_ Hy%elem_of_map_to_list]%list_elem_of_filter.
    congruence.
  - apply NoDup_filter, NoDup_map_to_list.
Qed.

Lemma count_entries_values f d :
  count_entries f d = length (filter (fun e => f e = true) (map_to_list d).*2).
Proof.
  unfold count_entries. rewrite size_filter_items.
  induction (map_to_list d) as [|[k e] l IH]; [reflexivity|].
  rewrite fmap_cons, !filter_cons. simpl.
  destruct (decide (f e = true)); simpl; congruence.
Qed.


Lemma count_entry_fold now days (l : list CacheEntry) (acc : nat * nat) :
  foldl (count_entry now days) acc l
  = ((acc.1 + length (filter (fun e => fresh now days e = true) l))%nat,
     (acc.2 + length (filter (fun e => stale now days e = true) l))%nat).
Proof.
  revert acc. induction l as [|e l IH]; intros [v x]; simpl.
  - f_equal; lia.
  - rewrite IH, !filter_cons. unfold count_entry, fresh, stale. simpl.
    destruct (timestamp e) as [| |t]; simpl.
    + f_equal; lia.
    + f_equal; lia.
    + destruct (Z.leb_spec (now - t) (timedelta_days days));
        destruct (Z.gtb_spec (now - t) (timedelta_days days)); try lia;
        simpl; f_equal; lia.
Qed.

Lemma get_stats_counts (self : GeocodingCache) now :
  total (get_stats self now).1 = size (cache_data self)
  /\ valid (get_stats self now).1
     = count_entries (fresh now (cache_max_age_days self)) (cache_data self)
  /\ expired (get_stats self now).1
     = count_entries (stale now (cache_max_age_days self)) (cache_data self).
Proof.
  unfold get_stats. simpl. rewrite count_entry_fold, !count_entries_values.
  simpl. auto.
Qed.

Lemma get_by_rule (self : GeocodingCache) now lat lon e :
  cache_data self !! _generate_cache_key self lat lon = Some e ->
  get self now lat lon
  = (if fresh now (cache_max_age_days self) e then location_data e else None, self).
Proof.
  intros He. unfold get, fresh. rewrite He.
  destruct (timestamp e) as [| |t]; try reflexivity.
  destruct (Z.leb_spec (now - t) (timedelta_days (cache_max_age_days self)));
    destruct (Z.gtb_spec (now - t) (timedelta_days (cache_max_age_days self)));
    try lia; reflexivity.
Qed.

Lemma get_unknown_key (self : GeocodingCache) now lat lon :
  cache_data self !! _generate_cache_key self lat lon = None ->
  get self now lat lon = (None, self).
Proof. intros He. unfold get. rewrite He. reflexivity. Qed.

Lemma get_keeps_cache (self : GeocodingCache) now lat lon :
  (get self now lat lon).2 = self.
Proof.
  unfold get. destruct (cache_data self !! _) as [e|]; [|reflexivity].
  destruct (timestamp e); try reflexivity.
  destruct (_ >? _); reflexivity.
Qed.

End CacheFacts.

Section SweepFacts.
Context {R : PyRuntime}.
Implicit Types (d : gmap string CacheEntry) (e : CacheEntry).

Lemma collect_old_fold now days (l : list (string * CacheEntry)) acc :
  foldl (collect_old now days) acc l
  = acc ++ (filter (fun item => stale now days item.2 = true) l).*1.
Proof.
  revert acc. induction l as [|[k e] l IH]; intros acc; simpl.
  - by rewrite app_nil_r.
  - rewrite IH, filter_cons. unfold collect_old, stale. simpl.
    destruct (timestamp e) as [| |t]; simpl; try reflexivity.
    + by rewrite <- app_assoc.
    + destruct (now - t >? timedelta_days days); simpl; [|reflexivity].
      by rewrite <- app_assoc.
Qed.

Lemma lookup_foldl_delete (keys : list string) d i :
  foldl (fun d key => delete key d) d keys !! i
  = if decide (i ∈ keys) then None else d !! i.
Proof.
  revert d. induction keys as [|k keys IH]; intros d; simpl.
  - destruct (decide (i ∈ [])) as [H|]; [inversion H | reflexivity].
  - rewrite IH. destruct (decide (i ∈ keys)) as [Hin|Hout].
    + rewrite decide_True; [reflexivity | by right].
    + destruct (decide (i = k)) as [->|Hne].
      * rewrite lookup_delete_eq, decide_True; [reflexivity | by left].
      * rewrite lookup_delete_ne by congruence.
        rewrite decide_False; [reflexivity|].
        intros [?|?]%elem_of_cons; congruence.
Qed.

Lemma swept_keys now days d i :
  i ∈ (filter (fun item => stale now days item.2 = true) (map_to_list d)).*1
  <-> exists e, d !! i = Some e /\ stale now days e = true.
Proof.
  rewrite list_elem_of_fmap. split.
  - intros [[k e] [-> [Hs Hin%elem_of_map_to_list]%list_elem_of_filter]].
    eauto.
  - intros [e [He Hs]]. exists (i, e). split; [reflexivity|].
    apply list_elem_of_filter. split; [exact Hs | by apply elem_of_map_to_list].
Qed.

Lemma clear_old_entries_lookup (self : GeocodingCache) now threshold i :
  let days := default (cache_max_age_days self) threshold in
  cache_data (clear_old_entries self now threshold).2 !! i
  = match cache_data self !! i with
    | Some e => if stale now days e then None else Some e
    | None => None
    end.
Proof.
  intros days.
  assert (Hd : match threshold with Some x => x | None => cache_max_age_days self end = days)
    by (by destruct threshold).
  unfold clear_old_entries. rewrite Hd, collect_old_fold. simpl.
  set (keys := (filter _ _).*1).
  assert (Hdata :
    cache_data (match keys with
                | [] => with_cache_data self
                          (foldl (fun d key => delete key d) (cache_data self) keys)
                | _ :: _ => save_cache (with_cache_data self
                          (foldl (fun d key => delete key d) (cache_data self) keys))
                end)
    = foldl (fun d key => delete key d) (cache_data self) keys)
    by (by destruct keys).
  rewrite Hdata, lookup_foldl_delete.
  destruct (decide (i ∈ keys)) as [Hin|Hout].
  - apply swept_keys in Hin as [e [-> ->]]. reflexivity.
  - destruct (cache_data self !! i) as [e|] eqn:He; [|reflexivity].
    destruct (stale now days e) eqn:Hs; [|reflexivity].
    exfalso. apply Hout, swept_keys. eauto.
Qed.

Lemma clear_old_entries_count (self : GeocodingCache) now threshold :
  (clear_old_entries self now threshold).1
  = count_entries (stale now (default (cache_max_age_days self) threshold))
                  (cache_data self).
Proof.
  assert (Hd : match threshold with Some x => x | None => cache_max_age_days self end
               = default (cache_max_age_days self) threshold)
    by (by destruct threshold).
  unfold clear_old_entries, count_entries. rewrite Hd, collect_old_fold. simpl.
  by rewrite length_fmap, size_filter_items.
Qed.

Lemma clear_old_entries_data (self : GeocodingCache) now threshold :
  cache_data (clear_old_entries self now threshold).2
  = filter (fun item : string * CacheEntry =>
              ¬ stale now (default (cache_max_age_days self) threshold) item.2 = true)
           (cache_data self).
Proof.
  apply map_eq. intros i.
  rewrite clear_old_entries_lookup, map_lookup_filter.
  destruct (cache_data self !! i) as [e|]; [|reflexivity]. simpl.
  destruct (stale _ _ e) eqn:Hs.
  - rewrite option_guard_False; [reflexivity | intros H; by apply H].
  - rewrite option_guard_True; [reflexivity | congruence].
Qed.

Lemma clear_old_entries_size (self : GeocodingCache) now threshold :
  (size (cache_data (clear_old_entries self now threshold).2)
   + (clear_old_entries self now threshold).1)%nat
  = size (cache_data self).
Proof.
  rewrite clear_old_entries_data, clear_old_entries_count. unfold count_entries.
  set (P := fun item : string * CacheEntry => stale now _ item.2 = true).
  rewrite <- (map_filter_union_complement P (cache_data self)) at 3.
  rewrite map_size_disj_union by apply map_disjoint_filter_complement.
  apply Nat.add_comm.
Qed.


Lemma clear_old_entries_settings (self : GeocodingCache) now threshold :
  cache_max_age_days (clear_old_entries self now threshold).2 = cache_max_age_days self
  /\ precision (clear_old_entries self now threshold).2 = precision self
  /\ cache_file (clear_old_entries self now threshold).2 = cache_file self.
Proof.
  unfold clear_old_entries. simpl.
  destruct (foldl _ _ _) as [|k keys]; auto.
Qed.

End SweepFacts.

(** ** The cache: sweep, snapshot, lookup *)

Section CacheClaims.
Context {R : PyRuntime}.

Lemma count_entries_pos (f : CacheEntry -> bool) (d : gmap string CacheEntry) key e :
  d !! key = Some e -> f e = true -> (0 < count_entries f d)%nat.
Proof.
  intros He Hf. unfold count_entries.
  assert (Hin : filter (fun item : string * CacheEntry => f item.2 = true) d !! key = Some e)
    by (by apply map_lookup_filter_Some_2).
  destruct (size _) eqn:Hsize; [|lia].
  apply map_size_empty_iff in Hsize. rewrite Hsize, lookup_empty in Hin.
  discriminate.
Qed.




Lemma get_after_fresh_set (self : GeocodingCache) (now later : Z)
  (lat lon : float) (location : LocationRecord) :
  later - now <= timedelta_days (cache_max_age_days self) ->
  (get (set self now lat lon location) later lat lon).1 = Some location.
Proof.
  intros Hsoon.
  rewrite (get_by_rule _ _ _ _
             {| timestamp := ts_naive now;
                coordinates := (round_ lat (precision self), round_ lon (precision self));
                entry_precision := precision self;
                location_data := Some location |}).
  - unfold fresh. simpl.
    destruct (Z.leb_spec (later - now) (timedelta_days (cache_max_age_days self)));
      [reflexivity | lia].
  - unfold set, _generate_cache_key. simpl. apply lookup_insert_eq.
Qed.


(** C9.  [get] and [get_stats] return the cache as they found it, for every
    cache state.  An entry whose timestamp is older than the maximum age is
    not handed out by [get] and is counted as expired by [get_stats]; it is
    still stored after both calls, and [clear_old_entries] removes it. *)
Theorem expired_entry_stays_until_swept (self : GeocodingCache) (now : Z)
  (lat lon : float) (e : CacheEntry) (t : Z) :
  cache_data self !! _generate_cache_key self lat lon = Some e ->
  timestamp e = ts_naive t ->
  now - t > timedelta_days (cache_max_age_days self) ->
  (forall (c : GeocodingCache) clock la lo,
     (get c clock la lo).2 = c /\ (get_stats c clock).2 = c)
  /\ get self now lat lon = (None, self)
  /\ expired (get_stats self now).1
     = count_entries (stale now (cache_max_age_days self)) (cache_data self)
  /\ stale now (cache_max_age_days self) e = true
  /\ (0 < expired (get_stats self now).1)%nat
  /\ cache_data (get_stats (get self now lat lon).2 now).2
       !! _generate_cache_key self lat lon = Some e
  /\ cache_data (clear_old_entries self now None).2
       !! _generate_cache_key self lat lon = None.
Proof.
  intros He Ht Hold.
  assert (Hstale : stale now (cache_max_age_days self) e = true).
  { unfold stale. rewrite Ht. apply Z.gtb_lt. lia. }
  assert (Hfresh : fresh now (cache_max_age_days self) e = false).
  { unfold fresh. rewrite Ht. apply Z.leb_gt. lia. }
  destruct (get_stats_counts self now) as (_ & _ & Hx).
  repeat split.
  - apply get_keeps_cache.
  - rewrite (get_by_rule _ _ _ _ e He), Hfresh. reflexivity.
  - exact Hx.
  - exact Hstale.
  - rewrite Hx. by apply (count_entries_pos _ _ _ e He).
  - rewrite get_keeps_cache. exact He.
  - rewrite clear_old_entries_lookup, He. simpl. by rewrite Hstale.
Qed.

End CacheClaims.

(** ** Facts about the worker *)

Section WorkerFacts.
Context {R : PyRuntime}.

Lemma appends_ret f {A} (a : A) : appends f (ret a).
Proof. intros self. exists []. by rewrite app_nil_r. Qed.

Lemma appends_raise f {A} msg : appends f (@raise _ A msg).
Proof. intros self. exists []. by rewrite app_nil_r. Qed.

Lemma appends_emit (f : event -> bool) e : f e = true -> appends f (emit e).
Proof. intros He self. exists [e]. split; [reflexivity | by constructor]. Qed.

Lemma appends_update_stats f g : appends f (update_stats g).
Proof. intros self. exists []. by rewrite app_nil_r. Qed.

Lemma appends_read_stats f : appends f read_stats.
Proof. intros self. exists []. by rewrite app_nil_r. Qed.

Lemma appends_read_skip_existing f : appends f read_skip_existing.
Proof. intros self. exists []. by rewrite app_nil_r. Qed.

Lemma appends_read_cache f : appends f read_cache.
Proof. intros self. exists []. by rewrite app_nil_r. Qed.

Lemma appends_cache_get f now lat lon : appends f (cache_get now lat lon).
Proof.
  intros self. exists []. unfold cache_get.
  destruct (get _ _ _ _). by rewrite app_nil_r.
Qed.

Lemma appends_cache_set f now lat lon location :
  appends f (cache_set now lat lon location).
Proof. intros self. exists []. by rewrite app_nil_r. Qed.

Lemma appends_bind f {A B} (m : M A) (k : A -> M B) :
  appends f m -> (forall a, appends f (k a)) -> appends f (bind m k).
Proof.
  intros Hm Hk self. unfold bind.
  destruct (Hm self) as (ev1 & Ht1 & Hf1).
  destruct (m self) as [[a|msg] self1]; simpl in *.
  - destruct (Hk a self1) as (ev2 & Ht2 & Hf2).
    exists (ev1 ++ ev2). rewrite Ht2, Ht1, app_assoc.
    split; [reflexivity | by apply Forall_app].
  - exists ev1. auto.
Qed.

Lemma appends_weaken (f g : event -> bool) {A} (m : M A) :
  (forall e, f e = true -> g e = true) -> appends f m -> appends g m.
Proof.
  intros Hfg Hm self. destruct (Hm self) as (events & Ht & Hf).
  exists events. split; [exact Ht|]. eapply Forall_impl; eauto.
Qed.

Lemma silent_ret {A} (a : A) : silent (ret a).
Proof. by intros self. Qed.

Lemma silent_raise {A} msg : silent (@raise _ A msg).
Proof. by intros self. Qed.

Lemma silent_emit e : silent (emit e).
Proof. by intros self. Qed.

Lemma silent_read_skip_existing : silent read_skip_existing.
Proof. by intros self. Qed.

Lemma silent_bind {A B} (m : M A) (k : A -> M B) :
  silent m -> (forall a, silent (k a)) -> silent (bind m k).
Proof.
  intros Hm Hk self. unfold bind.
  destruct (Hm self) as (Hs & Hc & Hx).
  destruct (m self) as [[a|msg] self1]; simpl in *.
  - destruct (Hk a self1) as (Hs' & Hc' & Hx'). repeat split; congruence.
  - auto.
Qed.

Lemma bind_ok {A B} (m : M A) (k : A -> M B) self a self' :
  m self = (Ok a, self') -> bind m k self = k a self'.
Proof. intros H. unfold bind. by rewrite H. Qed.

Lemma bind_raise {A B} (m : M A) (k : A -> M B) self msg self' :
  m self = (Raise msg, self') -> bind m k self = (Raise msg, self').
Proof. intros H. unfold bind. by rewrite H. Qed.

Lemma bind_ok_inv {A B} (m : M A) (k : A -> M B) self b self'' :
  bind m k self = (Ok b, self'') ->
  exists a self', m self = (Ok a, self') /\ k a self' = (Ok b, self'').
Proof.
  unfold bind. destruct (m self) as [[a|msg] self']; [eauto | discriminate].
Qed.

End WorkerFacts.

(** One step of a proof that a method only appends events of a kind *)
Ltac appends_step :=
  first
    [ apply appends_ret
    | apply appends_raise
    | apply appends_update_stats
    | apply appends_read_stats
    | apply appends_read_skip_existing
    | apply appends_read_cache
    | apply appends_cache_get
    | apply appends_cache_set
    | apply appends_emit; reflexivity
    | apply appends_bind; [|intros ?]
    | match goal with
      | |- appends _ (match ?x with _ => _ end) => destruct x
      end ].

(** One step of a proof that a method is silent *)
Ltac silent_step :=
  first
    [ apply silent_ret
    | apply silent_raise
    | apply silent_emit
    | apply silent_read_skip_existing
    | apply silent_bind; [|intros ?]
    | match goal with
      | |- silent (match ?x with _ => _ end) => destruct x
      end ].

Section PipelineFacts.
Context {R : PyRuntime}.

Lemma appends_check_existing image :
  appends is_file_event (check_existing_location_data image).
Proof. unfold check_existing_location_data, subprocess_run. repeat appends_step. Qed.

Lemma appends_skip_condition image : appends is_file_event (skip_condition image).
Proof.
  unfold skip_condition. apply appends_bind; [appends_step|].
  intros []; [apply appends_check_existing | appends_step].
Qed.

Lemma appends_get_gps_data image : appends is_file_event (get_gps_data image).
Proof. unfold get_gps_data, subprocess_run, log. repeat appends_step. Qed.

Lemma appends_compare image location :
  appends is_file_event (compare_location_data image location).
Proof. unfold compare_location_data, subprocess_run. repeat appends_step. Qed.

Lemma appends_write image location :
  appends is_file_event (write_location_data image location).
Proof. unfold write_location_data, subprocess_run, log. repeat appends_step. Qed.

Lemma appends_reverse_geocode image lat lon :
  appends is_file_event (reverse_geocode image lat lon).
Proof. unfold reverse_geocode, log. repeat appends_step. Qed.

Lemma appends_finish_image image location :
  appends is_file_event (finish_image image location).
Proof.
  unfold finish_image, log.
  destruct (negb _); [repeat appends_step|].
  apply appends_bind; [appends_step|]. intros _.
  apply appends_bind; [appends_step|]. intros _.
  apply appends_bind; [apply appends_compare|]. intros [].
  - apply appends_bind; [apply appends_write | intros _; appends_step].
  - repeat appends_step.
Qed.

Lemma appends_process_image image : appends is_file_event (process_image image).
Proof.
  unfold process_image, log.
  apply appends_bind; [appends_step|]. intros _.
  apply appends_bind; [apply appends_skip_condition|]. intros [].
  - repeat appends_step.
  - apply appends_bind; [apply appends_get_gps_data|]. intros [[lat lon]|].
    + apply appends_bind; [appends_step|]. intros _.
      apply appends_bind; [apply appends_reverse_geocode|]. intros location.
      apply appends_finish_image.
    + repeat appends_step.
Qed.

Lemma silent_check_existing image : silent (check_existing_location_data image).
Proof. unfold check_existing_location_data, subprocess_run. repeat silent_step. Qed.

Lemma silent_skip_condition image : silent (skip_condition image).
Proof.
  unfold skip_condition. apply silent_bind; [silent_step|].
  intros []; [apply silent_check_existing | silent_step].
Qed.

Lemma silent_get_gps_data image : silent (get_gps_data image).
Proof. unfold get_gps_data, subprocess_run, log. repeat silent_step. Qed.

Lemma silent_compare image location : silent (compare_location_data image location).
Proof. unfold compare_location_data, subprocess_run. repeat silent_step. Qed.

End PipelineFacts.

Section RunFacts.
Context {R : PyRuntime}.

Lemma count_events_app f (a b : list event) :
  count_events f (a ++ b) = (count_events f a + count_events f b)%nat.
Proof. unfold count_events. by rewrite filter_app, length_app. Qed.

Lemma count_events_cons f e (l : list event) :
  count_events f (e :: l) = ((if f e then 1 else 0) + count_events f l)%nat.
Proof.
  unfold count_events. rewrite filter_cons.
  destruct (f e); [rewrite decide_True | rewrite decide_False]; done.
Qed.

Lemma count_events_nil f : count_events f [] = 0%nat.
Proof. reflexivity. Qed.

Lemma count_events_none (f g : event -> bool) (events : list event) :
  (forall e, g e = true -> f e = false) ->
  Forall (fun e => g e = true) events ->
  count_events f events = 0%nat.
Proof.
  intros Hgf. unfold count_events.
  induction 1 as [|e l He _ IH]; [reflexivity|].
  rewrite filter_cons. destruct (decide (f e = true)) as [Hf|_]; [|exact IH].
  rewrite (Hgf e He) in Hf. discriminate.
Qed.

Lemma file_events_counts (events : list event) :
  Forall (fun e => is_file_event e = true) events ->
  count_events is_stop_read events = 0%nat
  /\ count_events is_progress events = 0%nat
  /\ count_events is_finished events = 0%nat
  /\ count_events is_error events = 0%nat.
Proof.
  intros H. repeat split;
    (eapply count_events_none; [|exact H]); by intros [].
Qed.

Lemma read_should_stop_eq should_stop i (self : GeocodingWorker) :
  read_should_stop should_stop i self
  = (Ok (should_stop i), (emit (ReadShouldStop (should_stop i)) self).2).
Proof. reflexivity. Qed.

Lemma emit_eq e (self : GeocodingWorker) : emit e self = (Ok tt, (emit e self).2).
Proof. reflexivity. Qed.

Lemma trace_emit e (self : GeocodingWorker) :
  trace (emit e self).2 = trace self ++ [e].
Proof. reflexivity. Qed.

(** The loop that is never cancelled, when it completes: one read of the
    flag and one progress signal per file, no other signal of the run. *)
Lemma run_loop_never_trace total (files : list ImageFile) :
  forall i self w,
    run_loop never total i files self = (Ok tt, w) ->
    exists events,
      trace w = trace self ++ events
      /\ count_events is_stop_read events = length files
      /\ count_events is_progress events = length files
      /\ count_events is_finished events = 0%nat
      /\ count_events is_error events = 0%nat.
Proof.
  induction files as [|f rest IH]; intros i self w Hrun.
  - inversion Hrun; subst. exists []. by rewrite app_nil_r.
  - simpl in Hrun.
    rewrite (bind_ok _ _ _ _ _ (read_should_stop_eq never i self)) in Hrun.
    simpl in Hrun.
    rewrite (bind_ok _ _ _ _ _ (emit_eq _ _)) in Hrun.
    apply bind_ok_inv in Hrun as (out & self3 & Hfile & Hrest).
    match type of Hfile with
    | process_image _ ?s = _ =>
        destruct (appends_process_image f s) as (evf & Htf & Hff)
    end.
    rewrite Hfile in Htf. simpl in Htf.
    destruct (IH _ _ _ Hrest) as (evr & Htr & Hs & Hp & Hfin & Herr).
    destruct (file_events_counts evf Hff) as (Hs' & Hp' & Hfin' & Herr').
    exists ([ReadShouldStop false; Progress (i + 1) total] ++ evf ++ evr).
    split.
    { rewrite Htr, Htf. simpl. by rewrite <- !app_assoc. }
    rewrite !count_events_app, Hs, Hp, Hfin, Herr, Hs', Hp', Hfin', Herr'.
    repeat split; simpl; lia.
Qed.

(** A run whose flag is found set at the head of iteration [k], and not
    before, does what the loop over the first [k] files does, then reads
    the flag once more and logs the cancellation. *)
Lemma run_loop_cancelled total should_stop :
  forall k (files : list ImageFile) i self w,
    (k < length files)%nat ->
    (forall j, (j < k)%nat -> should_stop (i + j)%nat = false) ->
    should_stop (i + k)%nat = true ->
    run_loop never total i (take k files) self = (Ok tt, w) ->
    run_loop should_stop total i files self
    = (Ok tt, (emit (Log LCancelled) (emit (ReadShouldStop true) w).2).2).
Proof.
  induction k as [|k IH]; intros files i self w Hlen Hbefore Hat Hrun.
  - destruct files as [|f rest]; [simpl in Hlen; lia|].
    rewrite take_0 in Hrun. inversion Hrun; subst.
    simpl. rewrite (bind_ok _ _ _ _ _ (read_should_stop_eq should_stop i w)).
    replace (i + 0)%nat with i in Hat by lia. rewrite Hat. reflexivity.
  - destruct files as [|f rest]; [simpl in Hlen; lia|].
    simpl in Hlen. rewrite firstn_cons in Hrun. simpl in Hrun. simpl.
    rewrite (bind_ok _ _ _ _ _ (read_should_stop_eq never i self)) in Hrun.
    rewrite (bind_ok _ _ _ _ _ (read_should_stop_eq should_stop i self)).
    assert (H0 : should_stop i = false).
    { replace i with (i + 0)%nat by lia. apply Hbefore. lia. }
    rewrite H0. simpl in Hrun.
    rewrite (bind_ok _ _ _ _ _ (emit_eq _ _)) in Hrun.
    rewrite (bind_ok _ _ _ _ _ (emit_eq _ _)).
    apply bind_ok_inv in Hrun as (out & self3 & Hfile & Hrest).
    rewrite (bind_ok _ _ _ _ _ Hfile).
    apply (IH rest (S i) self3 w); [lia | | | exact Hrest].
    + intros j Hj. replace (S i + j)%nat with (i + S j)%nat by lia.
      apply Hbefore. lia.
    + replace (S i + k)%nat with (i + S k)%nat by lia. exact Hat.
Qed.

Lemma run_epilogue_eq (files : list ImageFile) (self : GeocodingWorker) :
  exists final,
    run_epilogue files self = (Ok tt, final)
    /\ trace final = trace self ++ epilogue_events (length files) (stats self)
    /\ stats final = stats self
    /\ cache final = cache self.
Proof.
  unfold run_epilogue, log_statistics, epilogue_events, bind, log, emit, read_stats.
  simpl. destruct (Nat.ltb 0 (total_processed (stats self))); simpl;
    eexists; (split; [reflexivity|]); simpl; rewrite <- ?app_assoc; auto.
Qed.

Lemma appends_run_prologue (files : list ImageFile) :
  appends is_file_event (bind (log LSearching) (fun _ => run_prologue files)).
Proof. unfold run_prologue, log. repeat appends_step. Qed.

End RunFacts.

(** ** The run and its cancellation *)

Section RunClaims.
Context {R : PyRuntime}.

(** C8.  The loop of [run] reads the flag once at the head of each
    iteration and nowhere else.  When the first [k] of [n] files have been
    processed (the run up to there ends in [w_k]) and the read at the head of
    iteration [k] is the first to find the flag set, the run leaves the loop
    there: the counters and the cache are those reached after the [k] files,
    the trace continues with the read of the flag, the line 'Abgebrochen.',
    the statistics and one [Finished]; the run has read the flag [k + 1]
    times, signalled progress [k] times, and emitted no [Error]. *)
Theorem cancelled_run_stops_at_boundary (should_stop : nat -> bool)
  (files : list ImageFile) (k : nat) (self w_k : GeocodingWorker) :
  (k < length files)%nat ->
  (forall j, (j < k)%nat -> should_stop j = false) ->
  should_stop k = true ->
  bind (log LSearching)
       (fun _ => bind (run_prologue files)
                      (fun _ => run_loop never (length files) 0 (take k files)))
       self = (Ok tt, w_k) ->
  let final := run should_stop files self in
  trace final
  = trace w_k ++ [ReadShouldStop true; Log LCancelled]
              ++ epilogue_events (length files) (stats w_k)
  /\ stats final = stats w_k
  /\ cache final = cache w_k
  /\ exists events,
       trace final = trace self ++ events
       /\ count_events is_stop_read events = S k
       /\ count_events is_progress events = k
       /\ count_events is_finished events = 1%nat
       /\ count_events is_error events = 0%nat
       /\ Log LCancelled ∈ events.
Proof.
  intros Hk Hbefore Hat Hpre final.
  destruct (appends_run_prologue files self) as (evp & Htp & Hfp).
  apply bind_ok_inv in Hpre as ([] & s1 & Hlog & Hpre).
  apply bind_ok_inv in Hpre as ([] & s2 & Hpro & Hloop).
  rewrite (bind_ok _ _ _ _ _ Hlog), Hpro in Htp. simpl in Htp.
  destruct (run_loop_never_trace _ _ _ _ _ Hloop) as (evl & Htl & Hs & Hp & Hf & He).
  rewrite length_take, Nat.min_l in Hs, Hp by lia.
  assert (Hcut := run_loop_cancelled (length files) should_stop k files 0 s2 w_k
                    Hk Hbefore Hat Hloop).
  set (w_c := (emit (Log LCancelled) (emit (ReadShouldStop true) w_k).2).2) in Hcut.
  destruct (run_epilogue_eq files w_c) as (fin & Hepi & Htf & Hsf & Hcf).
  assert (Hfinal : final = fin).
  { unfold final, run, run_body.
    rewrite (bind_ok _ _ _ _ _ Hlog).
    destruct files as [|f rest]; [simpl in Hk; lia|].
    rewrite (bind_ok _ _ _ _ _ Hpro), (bind_ok _ _ _ _ _ Hcut), Hepi.
    reflexivity. }
  rewrite Hfinal.
  assert (Htrace : trace fin = trace w_k ++ [ReadShouldStop true; Log LCancelled]
                               ++ epilogue_events (length files) (stats w_k)).
  { rewrite Htf. unfold w_c. simpl. by rewrite <- !app_assoc. }
  split; [exact Htrace|]. split; [by rewrite Hsf|]. split; [by rewrite Hcf|].
  exists (evp ++ evl ++ [ReadShouldStop true; Log LCancelled]
              ++ epilogue_events (length files) (stats w_k)).
  destruct (file_events_counts evp Hfp) as (Hs' & Hp' & Hf' & He').
  split; [by rewrite Htrace, Htl, Htp, <- !app_assoc|].
  rewrite !count_events_app, Hs, Hp, Hf, He, Hs', Hp', Hf', He'.
  assert (Hin : Log LCancelled
                ∈ evp ++ evl ++ [ReadShouldStop true; Log LCancelled]
                      ++ epilogue_events (length files) (stats w_k)).
  { apply elem_of_app; right; apply elem_of_app; right.
    apply elem_of_cons; right; apply elem_of_cons; by left. }
  assert (Hepi_counts :
    count_events is_stop_read (epilogue_events (length files) (stats w_k)) = 0%nat
    /\ count_events is_progress (epilogue_events (length files) (stats w_k)) = 0%nat
    /\ count_events is_finished (epilogue_events (length files) (stats w_k)) = 1%nat
    /\ count_events is_error (epilogue_events (length files) (stats w_k)) = 0%nat).
  { unfold epilogue_events.
    destruct (Nat.ltb 0 (total_processed (stats w_k)));
      rewrite ?count_events_app, ?count_events_cons, ?count_events_nil; simpl; auto. }
  destruct Hepi_counts as (-> & -> & -> & ->).
  rewrite ?count_events_cons, ?count_events_nil. simpl.
  repeat split; try lia. exact Hin.
Qed.

End RunClaims.

(** ** The resolver *)

Section ResolverFacts.
Context {R : PyRuntime}.

Lemma location_of_properties_lookup (props : gmap string string) :
  location_of_properties props !! "country" = Some (dict_get props "country").
Proof. reflexivity. Qed.

Lemma location_of_properties_truthy (props : gmap string string) :
  dict_truthy (location_of_properties props) = true.
Proof.
  unfold dict_truthy. rewrite bool_decide_eq_false_2; [reflexivity|].
  intros Hempty.
  pose proof (location_of_properties_lookup props) as Hl.
  rewrite Hempty, lookup_empty in Hl. discriminate.
Qed.

Lemma cache_get_eq now lat lon (self : GeocodingWorker) :
  cache_get now lat lon self = (Ok (get (cache self) now lat lon).1, self).
Proof.
  unfold cache_get.
  pose proof (get_keeps_cache (cache self) now lat lon) as Hkeep.
  destruct (get (cache self) now lat lon) as [found c]. simpl in *. subst c.
  by destruct self.
Qed.

Lemma reverse_geocode_hit image lat lon (self : GeocodingWorker) :
  truthy (get (cache self) (now_get image) lat lon).1 = true ->
  reverse_geocode image lat lon self
  = (Ok (get (cache self) (now_get image) lat lon).1,
     {| cache := cache self; skip_existing := skip_existing self;
        stats := incr_cache_hits (stats self);
        trace := trace self ++ [Log LCacheHit] |}).
Proof.
  intros Hhit. unfold reverse_geocode.
  rewrite (bind_ok _ _ _ _ _ (cache_get_eq _ _ _ _)), Hhit.
  reflexivity.
Qed.

Lemma reverse_geocode_miss image lat lon (self : GeocodingWorker) :
  truthy (get (cache self) (now_get image) lat lon).1 = false ->
  exists tail,
    trace (reverse_geocode image lat lon self).2
    = trace self ++ [Log LApiQuery; HttpGet lat lon] ++ tail
    /\ count_events is_http_get tail = 0%nat
    /\ stats (reverse_geocode image lat lon self).2 = incr_api_calls (stats self)
    /\ skip_existing (reverse_geocode image lat lon self).2 = skip_existing self.
Proof.
  intros Hmiss. unfold reverse_geocode.
  rewrite (bind_ok _ _ _ _ _ (cache_get_eq _ _ _ _)), Hmiss.
  destruct (geocoder image) as [msg|msg|[[|[props|] rest]|]];
    unfold bind; simpl; rewrite <- ?app_assoc; simpl;
    eexists; (split; [reflexivity|]); auto.
Qed.

Lemma reverse_geocode_stores image lat lon (self : GeocodingWorker) props rest :
  truthy (get (cache self) (now_get image) lat lon).1 = false ->
  geocoder image = Response (Some (Some props :: rest)) ->
  reverse_geocode image lat lon self
  = (Ok (Some (location_of_properties props)),
     {| cache := set (cache self) (now_set image) lat lon (location_of_properties props);
        skip_existing := skip_existing self;
        stats := incr_api_calls (stats self);
        trace := trace self ++ [Log LApiQuery; HttpGet lat lon] |}).
Proof.
  intros Hmiss Hgeo. unfold reverse_geocode.
  rewrite (bind_ok _ _ _ _ _ (cache_get_eq _ _ _ _)), Hmiss, Hgeo.
  unfold bind. simpl. by rewrite <- app_assoc.
Qed.

Lemma reverse_geocode_fails image lat lon (self : GeocodingWorker) msg :
  truthy (get (cache self) (now_get image) lat lon).1 = false ->
  geocoder image = RequestException msg ->
  reverse_geocode image lat lon self
  = (Ok None,
     {| cache := cache self; skip_existing := skip_existing self;
        stats := incr_api_calls (stats self);
        trace := trace self ++ [Log LApiQuery; HttpGet lat lon; Log (LApiError msg)] |}).
Proof.
  intros Hmiss Hgeo. unfold reverse_geocode.
  rewrite (bind_ok _ _ _ _ _ (cache_get_eq _ _ _ _)), Hmiss, Hgeo.
  unfold bind. simpl. by rewrite <- !app_assoc.
Qed.

End ResolverFacts.

(** ** Methods that return normally *)

Section Completion.
Context {R : PyRuntime}.

Lemma completes_ret {A} (a : A) : completes (ret a).
Proof. intros self. by eexists _, _. Qed.

Lemma completes_emit e : completes (emit e).
Proof. intros self. by eexists _, _. Qed.

Lemma completes_update_stats g : completes (update_stats g).
Proof. intros self. by eexists _, _. Qed.

Lemma completes_read_skip_existing : completes read_skip_existing.
Proof. intros self. by eexists _, _. Qed.

Lemma completes_cache_get now lat lon : completes (cache_get now lat lon).
Proof. intros self. rewrite cache_get_eq. by eexists _, _. Qed.

Lemma completes_cache_set now lat lon location :
  completes (cache_set now lat lon location).
Proof. intros self. by eexists _, _. Qed.

Lemma completes_bind {A B} (m : M A) (k : A -> M B) :
  completes m -> (forall a, completes (k a)) -> completes (bind m k).
Proof.
  intros Hm Hk self. destruct (Hm self) as (a & w & Hw).
  rewrite (bind_ok _ _ _ _ _ Hw). apply Hk.
Qed.

End Completion.

(** One step of a proof that a method returns normally *)
Ltac completes_step :=
  first
    [ apply completes_ret
    | apply completes_update_stats
    | apply completes_read_skip_existing
    | apply completes_cache_get
    | apply completes_cache_set
    | apply completes_emit
    | apply completes_bind; [|intros ?]
    | match goal with
      | |- completes (match ?x with _ => _ end) => destruct x
      end ].

Section CompletionOfFiles.
Context {R : PyRuntime}.

Lemma completes_skip_condition image : completes (skip_condition image).
Proof.
  unfold skip_condition, check_existing_location_data, subprocess_run.
  repeat completes_step.
Qed.

Lemma completes_get_gps_data image :
  stat_succeeds image -> completes (get_gps_data image).
Proof.
  unfold stat_succeeds, get_gps_data, subprocess_run, log. intros Hstat.
  destruct (sidecar image) as [|newer|msg]; [| |contradiction];
    repeat completes_step.
Qed.

Lemma completes_reverse_geocode image lat lon :
  completes (reverse_geocode image lat lon).
Proof. unfold reverse_geocode, log. repeat completes_step. Qed.

Lemma completes_finish_image image location :
  completes (finish_image image location).
Proof.
  unfold finish_image, compare_location_data, write_location_data,
    subprocess_run, log.
  repeat completes_step.
Qed.

(** Nothing but a failing [stat] raises out of [process_image]. *)
Lemma completes_process_image image :
  stat_succeeds image -> completes (process_image image).
Proof.
  intros Hstat. unfold process_image, log.
  apply completes_bind; [completes_step|]. intros _.
  apply completes_bind; [apply completes_skip_condition|]. intros [].
  - repeat completes_step.
  - apply completes_bind; [by apply completes_get_gps_data|]. intros [[lat lon]|].
    + apply completes_bind; [completes_step|]. intros _.
      apply completes_bind; [apply completes_reverse_geocode|]. intros location.
      apply completes_finish_image.
    + repeat completes_step.
Qed.

Lemma completes_run_loop_never total (files : list ImageFile) :
  Forall stat_succeeds files ->
  forall i, completes (run_loop never total i files).
Proof.
  induction 1 as [|f rest Hf _ IH]; intros i; simpl.
  - apply completes_ret.
  - unfold read_should_stop, log.
    apply completes_bind; [repeat completes_step|]. intros [].
    + completes_step.
    + apply completes_bind; [completes_step|]. intros _.
      apply completes_bind; [by apply completes_process_image|]. intros _.
      apply IH.
Qed.

(** The run up to the boundary after [k] files completes when no [stat]
    fails for these files. *)
Lemma run_prefix_completes (files : list ImageFile) (k : nat)
  (self : GeocodingWorker) :
  Forall stat_succeeds (take k files) ->
  exists w_k,
    bind (log LSearching)
         (fun _ => bind (run_prologue files)
                        (fun _ => run_loop never (length files) 0 (take k files)))
         self = (Ok tt, w_k).
Proof.
  intros Hstat.
  assert (Hc : completes
                 (bind (log LSearching)
                    (fun _ => bind (run_prologue files)
                                (fun _ => run_loop never (length files) 0
                                            (take k files))))).
  { apply completes_bind; [apply completes_emit|]. intros _.
    apply completes_bind.
    - unfold run_prologue, log, read_cache.
      apply completes_bind; [completes_step|]. intros _.
      apply completes_bind; [intros w; by eexists _, _|]. intros c.
      repeat completes_step.
    - intros _. by apply completes_run_loop_never. }
  destruct (Hc self) as ([] & w & Hw). eauto.
Qed.

End CompletionOfFiles.

(** ** The adapter, the resolver and the pipeline *)

Section PipelineClaims.
Context {R : PyRuntime}.


(** C4 (amended).  A hit is a [cache.get] that returns a non-empty record.
    On a hit [reverse_geocode] returns that record, adds one to cache_hits
    and sends no HTTP request; otherwise it adds one to api_calls and sends
    exactly one request.  Starting from an empty cache with precision 5 and
    a maximum age of 30 days, a resolve whose request is answered with a
    first feature that has properties sends one request and stores one
    entry, and a second resolve of the same coordinates one minute later
    is a hit: no further request. *)
Theorem resolve_hits_and_misses :
  (forall (image : ImageFile) (lat lon : float) (self : GeocodingWorker),
     let cached := (get (cache self) (now_get image) lat lon).1 in
     let r := reverse_geocode image lat lon self in
     (truthy cached = true ->
        r.1 = Ok cached
        /\ stats r.2 = incr_cache_hits (stats self)
        /\ trace r.2 = trace self ++ [Log LCacheHit]
        /\ cache r.2 = cache self)
     /\ (truthy cached = false ->
           cache_hits (stats r.2) = cache_hits (stats self)
           /\ api_calls (stats r.2) = S (api_calls (stats self))
           /\ exists events,
                trace r.2 = trace self ++ events
                /\ http_requests events = 1%nat))
  /\ (forall (first second : ImageFile) (lat lon : float) (self : GeocodingWorker)
        props rest,
        cache_data (cache self) = ∅ ->
        precision (cache self) = 5 ->
        cache_max_age_days (cache self) = 30 ->
        geocoder first = Response (Some (Some props :: rest)) ->
        now_get second = now_set first + 60000000 ->
        let r1 := reverse_geocode first lat lon self in
        let r2 := reverse_geocode second lat lon r1.2 in
        r1.1 = Ok (Some (location_of_properties props))
        /\ trace r1.2 = trace self ++ [Log LApiQuery; HttpGet lat lon]
        /\ size (cache_data (cache r1.2)) = 1%nat
        /\ is_Some (cache_data (cache r1.2) !! _generate_cache_key (cache self) lat lon)
        /\ r2.1 = Ok (Some (location_of_properties props))
        /\ trace r2.2 = trace r1.2 ++ [Log LCacheHit]
        /\ cache_hits (stats r2.2) = S (cache_hits (stats self))
        /\ api_calls (stats r2.2) = S (api_calls (stats self))).
Proof.
  split.
  - intros image lat lon self cached r. split.
    + intros Hhit. unfold r. rewrite (reverse_geocode_hit _ _ _ _ Hhit). auto.
    + intros Hmiss.
      destruct (reverse_geocode_miss image lat lon self Hmiss) as (tail & Ht & Hn & Hs & _).
      fold r in Ht, Hs. rewrite Hs. repeat split.
      exists ([Log LApiQuery; HttpGet lat lon] ++ tail). split; [exact Ht|].
      unfold http_requests.
      rewrite count_events_app, Hn, !count_events_cons, count_events_nil.
      reflexivity.
  - intros first second lat lon self props rest Hempty Hprec Hage Hgeo Hlater r1 r2.
    assert (Hmiss : truthy (get (cache self) (now_get first) lat lon).1 = false).
    { rewrite get_unknown_key; [reflexivity|]. by rewrite Hempty, lookup_empty. }
    assert (H1 := reverse_geocode_stores first lat lon self props rest Hmiss Hgeo).
    fold r1 in H1.
    assert (Hhit : (get (cache r1.2) (now_get second) lat lon).1
                   = Some (location_of_properties props)).
    { rewrite H1. simpl. apply get_after_fresh_set.
      rewrite Hage, Hlater. unfold timedelta_days. lia. }
    assert (Htruthy : truthy (get (cache r1.2) (now_get second) lat lon).1 = true)
      by (rewrite Hhit; apply location_of_properties_truthy).
    assert (H2 := reverse_geocode_hit second lat lon r1.2 Htruthy).
    fold r2 in H2. rewrite H2, Hhit, H1. simpl.
    repeat split.
    + rewrite Hempty, map_size_insert_None by apply lookup_empty.
      by rewrite map_size_empty.
    + unfold _generate_cache_key. rewrite lookup_insert_eq. eauto.
Qed.



End PipelineClaims.

(** * The properties on sample data *)

Section OnSamples.
Import Samples.
#[local] Existing Instance Fixture.runtime.

Example fixture_parse : Fixture.parse_fixed "48.85837" = Some lat_paris.
Proof. reflexivity. Qed.

Example fixture_round : Fixture.round_fixed 488583749 5 = lat_paris.
Proof. reflexivity. Qed.

Example strip_then_split :
  Str.split Str.LF (Str.strip (output [" Paris"; "Ile-de-France"]))
  = ["Paris"; "Ile-de-France"].
Proof. reflexivity. Qed.

Example untagged_photo_is_written :
  let r := process_image (untagged "3.jpg" 0) (worker_on (cache_of ∅) true) in
  r.1 = Ok WRITTEN
  /\ stats r.2
     = {| cache_hits := 0; api_calls := 1; total_processed := 1;
          skipped_already_tagged := 0; skipped_no_gps := 0;
          metadata_written := 1; metadata_unchanged := 0 |}
  /\ http_requests (trace r.2) = 1%nat.
Proof. repeat (split; [reflexivity|]). reflexivity. Qed.




(** Empty cache, precision 5, maximum age 30: when the request fails, the
    resolve of (48.85837, 2.29448) stores nothing, and the resolve one
    minute later sends a second request. *)
Lemma failed_request_stores_nothing :
  let self := worker_on (cache_of ∅) true in
  let r1 := reverse_geocode (unreachable 0) lat_paris lon_paris self in
  let r2 := reverse_geocode (unreachable minute) lat_paris lon_paris r1.2 in
  r1.1 = Ok None
  /\ http_requests (trace r1.2) = 1%nat
  /\ size (cache_data (cache r1.2)) = 0%nat
  /\ http_requests (trace r2.2) = 2%nat.
Proof. repeat (split; [reflexivity|]). reflexivity. Qed.

Lemma resolve_hits_and_misses_witness :
  let self := worker_on (cache_of ∅) true in
  let r1 := reverse_geocode (untagged "3.jpg" 0) lat_paris lon_paris self in
  let r2 := reverse_geocode (untagged "3.jpg" minute) lat_paris lon_paris r1.2 in
  cache_data (cache self) = ∅
  /\ http_requests (trace r1.2) = 1%nat
  /\ size (cache_data (cache r1.2)) = 1%nat
  /\ trace r2.2 = trace r1.2 ++ [Log LCacheHit].
Proof.
  intros self r1 r2.
  destruct (proj2 resolve_hits_and_misses
              (untagged "3.jpg" 0) (untagged "3.jpg" minute) lat_paris lon_paris
              self paris [] eq_refl eq_refl eq_refl eq_refl eq_refl)
    as (_ & Ht1 & Hsize & _ & _ & Ht2 & _).
  split; [reflexivity|]. split; [reflexivity|]. split; [exact Hsize | exact Ht2].
Defined.



Lemma expired_entry_stays_until_swept_witness :
  31 * day - 0 > timedelta_days (cache_max_age_days cache_with_paris)
  /\ get cache_with_paris (31 * day) lat_paris lon_paris = (None, cache_with_paris)
  /\ (0 < expired (get_stats cache_with_paris (31 * day)).1)%nat
  /\ cache_data (clear_old_entries cache_with_paris (31 * day) None).2
       !! _generate_cache_key cache_with_paris lat_paris lon_paris = None.
Proof.
  assert (Hold : 31 * day - 0 > timedelta_days (cache_max_age_days cache_with_paris))
    by reflexivity.
  destruct (expired_entry_stays_until_swept cache_with_paris (31 * day)
              lat_paris lon_paris
              {| timestamp := ts_naive 0; coordinates := (lat_paris, lon_paris);
                 entry_precision := 5; location_data := Some paris |} 0
              eq_refl eq_refl Hold)
    as (_ & Hget & _ & _ & Hpos & _ & Hgone).
  split; [exact Hold|]. split; [exact Hget|]. split; [exact Hpos | exact Hgone].
Defined.



Lemma cancelled_run_stops_at_boundary_witness :
  let self := worker_on (cache_of ∅) true in
  let final := run stop_after_two five_files self in
  stop_after_two 2 = true
  /\ count_events is_progress (trace final) = 2%nat
  /\ count_events is_finished (trace final) = 1%nat
  /\ count_events is_error (trace final) = 0%nat
  /\ Log LCancelled ∈ trace final
  /\ skipped_already_tagged (stats final) = 1%nat
  /\ skipped_no_gps (stats final) = 1%nat.
Proof.
  intros self final.
  assert (Hbefore : forall j, (j < 2)%nat -> stop_after_two j = false).
  { intros [|[|j]] Hj; [reflexivity | reflexivity | lia]. }
  set (pre := bind (log LSearching)
                (fun _ => bind (run_prologue five_files)
                            (fun _ => run_loop never (length five_files) 0
                                        (take 2 five_files))) self).
  assert (Hpre : pre = (Ok tt, pre.2)).
  { assert (H1 : pre.1 = Ok tt) by (vm_compute; reflexivity).
    destruct pre as [a b]. simpl in H1. rewrite H1. reflexivity. }
  assert (Hlen : (2 < length five_files)%nat) by (simpl; lia).
  destruct (cancelled_run_stops_at_boundary stop_after_two five_files 2 self
              pre.2 Hlen Hbefore eq_refl Hpre)
    as (_ & Hstats & _ & events & Htrace & _ & Hp & Hf & He & Hin).
  fold final in Hstats, Htrace.
  change (trace final = events) in Htrace. rewrite Htrace, Hstats.
  split; [reflexivity|]. split; [exact Hp|]. split; [exact Hf|].
  split; [exact He|]. split; [exact Hin|].
  split; vm_compute; reflexivity.
Defined.

End OnSamples.

(** * Further properties of the cache *)

Section CacheLife.
Context {R : PyRuntime}.
Implicit Types (self c : GeocodingCache) (e : CacheEntry).

Lemma stale_later now later days e :
  now <= later -> stale now days e = true -> stale later days e = true.
Proof.
  unfold stale. destruct (timestamp e) as [| |t]; auto.
  rewrite !Z.gtb_lt. lia.
Qed.

Lemma fresh_earlier now later days e :
  now <= later -> fresh later days e = true -> fresh now days e = true.
Proof.
  unfold fresh. destruct (timestamp e) as [| |t]; auto.
  rewrite !Z.leb_le. lia.
Qed.

Lemma fresh_not_stale now days e :
  fresh now days e = true -> stale now days e = false.
Proof.
  unfold fresh, stale. destruct (timestamp e) as [| |t]; try discriminate.
  rewrite Z.leb_le. intros H. rewrite Z.gtb_ltb. apply Z.ltb_ge. lia.
Qed.

Lemma filter_none {A} (P : A -> Prop) `{!forall x, Decision (P x)} (l : list A) :
  (forall x, x ∈ l -> ¬ P x) -> filter P l = [].
Proof.
  induction l as [|x l IH]; intros Hno; [reflexivity|].
  rewrite filter_cons, decide_False by (apply Hno; by left).
  apply IH. intros y Hy. apply Hno. by right.
Qed.

(** A sweep of a store without stale entries does nothing at all. *)
Lemma clear_old_entries_nothing self now threshold :
  (forall key e, cache_data self !! key = Some e ->
     stale now (default (cache_max_age_days self) threshold) e = false) ->
  clear_old_entries self now threshold = (0%nat, self).
Proof.
  intros Hnone.
  assert (Hd : match threshold with Some x => x | None => cache_max_age_days self end
               = default (cache_max_age_days self) threshold)
    by (by destruct threshold).
  unfold clear_old_entries. rewrite Hd, collect_old_fold.
  rewrite filter_none.
  - simpl. by destruct self.
  - intros [k e] Hin%elem_of_map_to_list. simpl.
    rewrite (Hnone k e Hin). discriminate.
Qed.

(** X1.  A second sweep at the same clock and threshold deletes nothing:
    it returns 0, leaves the object as the first sweep left it and does not
    call [save_cache] again. *)
Theorem clear_old_entries_idempotent self now threshold :
  clear_old_entries (clear_old_entries self now threshold).2 now threshold
  = (0%nat, (clear_old_entries self now threshold).2).
Proof.
  apply clear_old_entries_nothing. intros key e He.
  destruct (clear_old_entries_settings self now threshold) as (-> & _).
  rewrite clear_old_entries_lookup in He.
  destruct (cache_data self !! key) as [e0|]; [|discriminate].
  destruct (stale now _ e0) eqn:Hs; [discriminate|].
  by inversion He; subst.
Qed.


(** X2.  A sweep at the active maximum age is invisible to [get]: at the
    clock of the sweep or later, [get] answers after the sweep what it
    would have answered without it, for every coordinate pair. *)
Theorem sweep_is_invisible_to_get self now later (lat lon : float) :
  now <= later ->
  (get (clear_old_entries self now None).2 later lat lon).1
  = (get self later lat lon).1.
Proof.
  intros Hlater.
  destruct (clear_old_entries_settings self now None) as (Hage & Hprec & _).
  set (swept := (clear_old_entries self now None).2) in *.
  assert (Hkey : _generate_cache_key swept lat lon = _generate_cache_key self lat lon)
    by (unfold _generate_cache_key; by rewrite Hprec).
  pose proof (clear_old_entries_lookup self now None (_generate_cache_key self lat lon))
    as Hlook.
  fold swept in Hlook. simpl in Hlook.
  destruct (cache_data self !! _generate_cache_key self lat lon) as [e|] eqn:He.
  - rewrite (get_by_rule self later lat lon e He).
    destruct (stale now (cache_max_age_days self) e) eqn:Hs.
    + rewrite get_unknown_key by (by rewrite Hkey).
      destruct (fresh later (cache_max_age_days self) e) eqn:Hf; [|reflexivity].
      apply fresh_not_stale in Hf.
      rewrite (stale_later now later _ e Hlater Hs) in Hf. discriminate.
    + rewrite (get_by_rule swept later lat lon e) by (by rewrite Hkey).
      by rewrite Hage.
  - rewrite !get_unknown_key; rewrite ?Hkey; auto.
Qed.

Lemma count_entries_filter (f g : CacheEntry -> bool) (d : gmap string CacheEntry) :
  count_entries f (filter (fun item : string * CacheEntry => ¬ g item.2 = true) d)
  = count_entries (fun e => f e && negb (g e)) d.
Proof.
  unfold count_entries. rewrite map_filter_filter. f_equal.
  apply map_filter_ext. intros k e _. simpl.
  destruct (f e), (g e); simpl; split; intros H; try tauto; try discriminate;
    try (destruct H; congruence); try (split; congruence).
Qed.

Lemma count_entries_ext (f g : CacheEntry -> bool) (d : gmap string CacheEntry) :
  (forall e, f e = g e) -> count_entries f d = count_entries g d.
Proof.
  intros H. unfold count_entries. f_equal. apply map_filter_ext.
  intros k e _. simpl. by rewrite H.
Qed.

Lemma count_entries_false (d : gmap string CacheEntry) :
  count_entries (fun _ => false) d = 0%nat.
Proof.
  unfold count_entries. apply map_size_empty_iff, map_empty_filter.
  intros k e _. simpl. discriminate.
Qed.

(** X3.  After a sweep at the active maximum age, a snapshot taken at the
    same clock reports no expired entry and as many valid entries as before;
    its total has dropped by the number the sweep returned. *)
Theorem snapshot_after_sweep self now :
  let before := (get_stats self now).1 in
  let swept := clear_old_entries self now None in
  let after := (get_stats swept.2 now).1 in
  expired after = 0%nat
  /\ valid after = valid before
  /\ (total after + swept.1)%nat = total before
  /\ swept.1 = expired before.
Proof.
  cbv zeta.
  destruct (get_stats_counts self now) as (Ht & Hv & Hx).
  destruct (get_stats_counts (clear_old_entries self now None).2 now)
    as (Ht' & Hv' & Hx').
  destruct (clear_old_entries_settings self now None) as (Hage & _).
  rewrite Hage in Hv', Hx'.
  rewrite clear_old_entries_data, count_entries_filter in Hv', Hx'.
  rewrite Ht, Hv, Hx, Ht', Hv', Hx'. cbn [default].
  repeat split.
  - rewrite <- (count_entries_false (cache_data self)).
    apply count_entries_ext. intros e. by destruct (stale now _ e).
  - apply count_entries_ext. intros e.
    destruct (fresh now (cache_max_age_days self) e) eqn:Hf; [|reflexivity].
    by rewrite (fresh_not_stale _ _ _ Hf).
  - apply clear_old_entries_size.
  - apply (clear_old_entries_count self now None).
Qed.




(** X5.  [set] changes the store at one key only: the entry under the key
    of the coordinates now holds the record, every other key is as before,
    the store grows by one entry if the key was new and not at all if it was
    taken, and [get] for coordinates with another key answers as before. *)
Theorem set_changes_one_key self now (lat lon : float) (location : LocationRecord) :
  let key := _generate_cache_key self lat lon in
  let self' := set self now lat lon location in
  (location_data <$> cache_data self' !! key) = Some (Some location)
  /\ (forall k, k <> key -> cache_data self' !! k = cache_data self !! k)
  /\ size (cache_data self')
     = match cache_data self !! key with
       | Some _ => size (cache_data self)
       | None => S (size (cache_data self))
       end
  /\ (forall later la lo,
        _generate_cache_key self la lo <> key ->
        (get self' later la lo).1 = (get self later la lo).1).
Proof.
  intros key self'. unfold self', set. simpl. fold key. repeat split.
  - by rewrite lookup_insert_eq.
  - intros k Hk. by rewrite lookup_insert_ne.
  - rewrite map_size_insert. by destruct (cache_data self !! key).
  - intros later la lo Hk. unfold get, _generate_cache_key in *. simpl.
    rewrite lookup_insert_ne by congruence.
    destruct (cache_data self !! _) as [e|]; [|reflexivity].
    destruct (timestamp e); try reflexivity.
    by destruct (_ >? _).
Qed.

(** X6.  Expiry only moves forward: a record that [get] hands out at some
    clock is handed out at every earlier clock too, so an entry that [get]
    has refused for its age is refused from then on. *)
Theorem get_earlier self now later (lat lon : float) (location : LocationRecord) :
  now <= later ->
  (get self later lat lon).1 = Some location ->
  (get self now lat lon).1 = Some location.
Proof.
  intros Hle Hget.
  destruct (cache_data self !! _generate_cache_key self lat lon) as [e|] eqn:He.
  - rewrite (get_by_rule self later lat lon e He) in Hget.
    rewrite (get_by_rule self now lat lon e He). simpl in *.
    destruct (fresh later (cache_max_age_days self) e) eqn:Hf; [|discriminate].
    by rewrite (fresh_earlier now later _ e Hle Hf).
  - rewrite (get_unknown_key self later lat lon He) in Hget. discriminate.
Qed.

Lemma after_call_keeps_settings c (call : cache_call) :
  valid_settings c -> valid_settings (after_call c call).
Proof.
  unfold valid_settings. intros [Hp Ha].
  destruct call as [now lat lon|now lat lon location|now threshold|now|p|days|];
    cbn [after_call].
  - by rewrite get_keeps_cache.
  - auto.
  - by destruct (clear_old_entries_settings c now threshold) as (-> & -> & _).
  - auto.
  - unfold set_precision. destruct (PRECISION_LEVELS p) eqn:Hl; simpl; [|auto].
    rewrite Hl. eauto.
  - unfold set_max_age_days. destruct (Z.gtb_spec days 0); simpl; auto.
  - auto.
Qed.

(** X7.  The setters guard the configuration: once the precision is one
    of the five levels and the maximum age is positive, they stay so under
    every sequence of calls (an invalid precision or an age of zero or less
    is ignored), and [get_precision_info] reports the level of the table
    for the active precision, not its fallback. *)
Theorem settings_stay_valid (c : GeocodingCache) (calls : list cache_call) :
  valid_settings c ->
  valid_settings (foldl after_call c calls)
  /\ PRECISION_LEVELS (precision (foldl after_call c calls))
     = Some (get_precision_info (foldl after_call c calls)).
Proof.
  intros Hvalid.
  assert (H : valid_settings (foldl after_call c calls)).
  { revert c Hvalid. induction calls as [|call calls IH]; intros c Hc; simpl; [exact Hc|].
    apply IH. by apply after_call_keeps_settings. }
  split; [exact H|].
  destruct H as [[info Hinfo] _]. unfold get_precision_info. by rewrite Hinfo.
Qed.

(** X8.  After the dialog's "clear all" the store is empty: every snapshot
    reports zero entries of each kind, [get] finds nothing for any
    coordinates, and the empty store is what [save_cache] was given. *)
Theorem clear_all_cache_empties self :
  let c := clear_all_cache self in
  (forall now,
     total (get_stats c now).1 = 0%nat
     /\ valid (get_stats c now).1 = 0%nat
     /\ expired (get_stats c now).1 = 0%nat)
  /\ (forall now (lat lon : float), (get c now lat lon).1 = None)
  /\ saved c = ∅ :: saved self
  /\ (forall file, on_disk file c = JsonFile ∅).
Proof.
  intros c. split; [|split; [|split]].
  - intros now. unfold c, get_stats. simpl.
    rewrite map_size_empty, map_to_list_empty. auto.
  - intros now lat lon. rewrite get_unknown_key; [reflexivity|].
    unfold c. simpl. apply lookup_empty.
  - reflexivity.
  - reflexivity.
Qed.


End CacheLife.

(** * Further properties of the worker *)

Section TextFacts.






End TextFacts.

Section AdapterFacts.
Context {R : PyRuntime}.


Lemma filter_bool_cons {A} (f : A -> bool) (x : A) (l : list A) :
  filter (fun a => f a = true) (x :: l)
  = if f x then x :: filter (fun a => f a = true) l
    else filter (fun a => f a = true) l.
Proof.
  rewrite filter_cons.
  destruct (f x); [rewrite decide_True | rewrite decide_False]; done.
Qed.

Lemma scan_gps_lines (lines : list string) :
  forall acc,
    foldl scan_gps_line acc lines
    = (match last_value (filter (fun l => is_latitude_line l = true) lines) with
       | Some v => Some v
       | None => acc.1
       end,
       match last_value (filter (fun l => is_longitude_line l = true) lines) with
       | Some v => Some v
       | None => acc.2
       end).
Proof.
  unfold last_value.
  induction lines as [|l lines IH]; intros [lat lon]; [reflexivity|].
  cbn [foldl]. rewrite IH, !filter_bool_cons.
  unfold scan_gps_line, is_latitude_line, is_longitude_line.
  destruct (Str.contains "GPS Latitude" l) eqn:Hlat; cbn [negb andb fst snd].
  - destruct (parse_gps_value l) as [v|] eqn:Hv; cbn [omap list_omap fst snd];
      rewrite Hv; [|reflexivity].
    rewrite last_cons.
    repeat match goal with
           | |- context [match last ?x with _ => _ end] => destruct (last x)
           end; reflexivity.
  - destruct (Str.contains "GPS Longitude" l) eqn:Hlon; [|reflexivity].
    destruct (parse_gps_value l) as [v|] eqn:Hv; cbn [omap list_omap fst snd];
      rewrite Hv; [|reflexivity].
    rewrite last_cons.
    repeat match goal with
           | |- context [match last ?x with _ => _ end] => destruct (last x)
           end; reflexivity.
Qed.

(** X11.  [get_gps_data] raises when a [stat] of the file or its sidecar
    fails, before any tool is run.  Otherwise it runs the tool once, on the
    sidecar exactly when the sidecar is newer, and returns the pair of the
    last latitude line and the last longitude line that parse, provided the
    tool exits with status 0 and both exist; in every other case (non-zero
    status whatever the output, a missing value, a timeout, a missing
    executable, another exception) it returns [None].  Counters and cache
    are untouched. *)
Theorem get_gps_data_spec (image : ImageFile) (self : GeocodingWorker) :
  let r := get_gps_data image self in
  r.1 = gps_reading image
  /\ (exists events,
        trace r.2 = trace self ++ events
        /\ filter (fun e => is_gps_read e = true) events
           = match sidecar image with
             | StatRaises _ => []
             | NoSidecar | Sidecar _ => [Subprocess (ReadGps (gps_file image))]
             end
        /\ Forall (fun e => is_file_event e = true) events)
  /\ stats r.2 = stats self
  /\ cache r.2 = cache self.
Proof.
  unfold get_gps_data, gps_reading, gps_file, subprocess_run, bind, log, emit,
    ret, raise.
  destruct (sidecar image) as [|[|]|err];
    destruct (gps_probe image) as [rc stdout| |err'|err'];
    cbv beta iota; rewrite ?scan_gps_lines;
    try destruct (rc =? 0) eqn:Hrc;
    repeat match goal with
           | |- context [last_value ?x] => destruct (last_value x)
           end;
    simpl; rewrite <- ?app_assoc; simpl;
    (split; [reflexivity|]); (split; [|auto]);
    eexists; (split; [symmetry; apply app_nil_r || reflexivity|]);
    (split; [reflexivity | repeat constructor]).
Qed.

End AdapterFacts.

Section ResolverLife.
Context {R : PyRuntime}.





End ResolverLife.

Section WriterFacts.
Context {R : PyRuntime}.

Lemma write_location_data_effect (image : ImageFile) (location : LocationRecord)
  (self : GeocodingWorker) :
  let succeeded :=
    match write_run image with
    | Completed returncode _ => returncode =? 0
    | TimeoutExpired | FileNotFoundError _ | OtherException _ => false
    end in
  exists w events,
    write_location_data image location self = (Ok tt, w)
    /\ stats w = (if succeeded then incr_metadata_written (stats self)
                  else stats self)
    /\ cache w = cache self
    /\ skip_existing w = skip_existing self
    /\ trace w = trace self ++ events
    /\ filter (fun e => is_write e = true) events
       = Subprocess (WriteTags (path image) location)
         :: (if succeeded && sidecar_at_write image
             then [Subprocess (WriteTags (xmp_path image) location)]
             else [])
    /\ Forall (fun e => is_file_event e = true) events
    /\ http_requests events = 0%nat.
Proof.
  unfold write_location_data, subprocess_run, bind, log, emit, update_stats, ret.
  destruct (write_run image) as [rc out| |err|err]; cbv beta iota;
    try destruct (rc =? 0) eqn:Hrc;
    try destruct (sidecar_at_write image) eqn:Hside;
    try destruct (sidecar_write_run image) as [rc' out'| |err'|err'];
    simpl; rewrite <- ?app_assoc; simpl;
    eexists _, _; (split; [reflexivity|]);
    (split; [reflexivity|]); (split; [reflexivity|]); (split; [reflexivity|]);
    (split; [reflexivity|]); (split; [reflexivity|]);
    (split; [repeat constructor | reflexivity]).
Qed.

(** X14.  [write_location_data] never raises and never touches the cache.
    It runs the tool once on the image; it adds one to metadata_written
    exactly when that run exits with status 0, and only then, if a sidecar
    exists, runs the tool a second time on the sidecar; whatever that
    second run does, the count stands. *)
Theorem write_location_data_spec (image : ImageFile) (location : LocationRecord)
  (self : GeocodingWorker) :
  let r := write_location_data image location self in
  let succeeded :=
    match write_run image with
    | Completed returncode _ => returncode =? 0
    | TimeoutExpired | FileNotFoundError _ | OtherException _ => false
    end in
  r.1 = Ok tt
  /\ stats r.2 = (if succeeded then incr_metadata_written (stats self)
                  else stats self)
  /\ cache r.2 = cache self
  /\ count_events is_write (drop (length (trace self)) (trace r.2))
     = (if succeeded && sidecar_at_write image then 2 else 1)%nat.
Proof.
  intros r succeeded.
  destruct (write_location_data_effect image location self)
    as (w & events & Hrun & Hstats & Hcache & _ & Htrace & Hwrites & _).
  unfold r. rewrite Hrun. simpl. fold succeeded in Hstats, Hwrites.
  split; [reflexivity|]. split; [exact Hstats|]. split; [exact Hcache|].
  rewrite Htrace, drop_app_length. unfold count_events. rewrite Hwrites.
  by destruct (succeeded && sidecar_at_write image).
Qed.

End WriterFacts.

Section WriteArguments.

Lemma length_tags_of (value : option string) (tags : list string) :
  (length (tags_of value tags) <= length tags)%nat.
Proof. destruct value; simpl; [by rewrite length_fmap | lia]. Qed.

Lemma tags_of_nil (value : option string) (tag : string) (tags : list string) :
  tags_of value (tag :: tags) = [] <-> value = None.
Proof. destruct value; simpl; split; intros H; done. Qed.

Lemma insert_last {A} (l : list A) (x y : A) :
  <[Nat.pred (length (l ++ [x])) := y]> (l ++ [x]) = l ++ [y].
Proof.
  rewrite length_app. simpl.
  replace (Nat.pred (length l + 1)) with (length l + 0)%nat by lia.
  by rewrite insert_app_r.
Qed.

Lemma sidecar_arguments_last (args : list string) (image_path xmp : string) :
  sidecar_arguments (args ++ [image_path]) xmp = args ++ [xmp].
Proof.
  unfold sidecar_arguments.
  destruct (args ++ [image_path]) as [|a rest] eqn:H; [by destruct args|].
  rewrite <- H. apply insert_last.
Qed.

(** X15.  The argument list of a write is the executable, then the tags
    (at most nineteen), then the three flags for overwriting in place,
    keeping the file's date and UTF-8, then the path.  No tag is written
    for a field that is missing or empty: the list has no tag at all exactly
    when country, country code, state, county, city, suburb, district,
    street, postcode and name are all missing or empty (house number and
    locality alone write nothing).  The list for the sidecar is the list
    that the same record gives for the sidecar's path. *)
Theorem write_arguments_shape (exiftool : string) (upper : string -> string)
  (image_path : string) (location : LocationRecord) :
  exists tags,
    write_arguments exiftool upper image_path location
    = [exiftool] ++ tags
      ++ ["-overwrite_original"; "-P"; "-codedcharacterset=utf8"; image_path]
    /\ (length tags <= 19)%nat
    /\ (tags = [] <->
        Forall (fun key => field location key = None)
          ["country"; "countrycode"; "state"; "county"; "city"; "suburb";
           "district"; "street"; "postcode"; "name"])
    /\ forall xmp,
         sidecar_arguments (write_arguments exiftool upper image_path location) xmp
         = write_arguments exiftool upper xmp location.
Proof.
  unfold write_arguments.
  set (t1 := tags_of (field location "country") _).
  set (t2 := tags_of (upper <$> field location "countrycode") _).
  set (t3 := tags_of (field location "state") _).
  set (t4 := tags_of (field location "county") _).
  set (t5 := tags_of (field location "city") _).
  set (t6 := tags_of match field location "suburb" with
                     | Some v => Some v
                     | None => field location "district"
                     end _).
  set (t7 := tags_of match field location "street" with
                     | Some street => _
                     | None => None
                     end _).
  set (t8 := tags_of (field location "postcode") _).
  set (t9 := tags_of match field location "name" with
                     | Some name => _
                     | None => None
                     end _).
  exists (t1 ++ t2 ++ t3 ++ t4 ++ t5 ++ t6 ++ t7 ++ t8 ++ t9).
  split; [by rewrite <- !app_assoc|]. split; [|split].
  - rewrite !length_app.
    pose proof (length_tags_of (field location "country")
                  ["-IPTC:Country-PrimaryLocationName="; "-XMP:Country=";
                   "-XMP-iptcExt:LocationShownCountryName="]).
    unfold t1, t2, t3, t4, t5, t6, t7, t8, t9.
    repeat match goal with
           | |- context [length (tags_of ?v ?l)] =>
               let H := fresh in
               pose proof (length_tags_of v l) as H; simpl in H;
               generalize dependent (length (tags_of v l)); intros
           end.
    lia.
  - rewrite !app_nil.
    unfold t1, t2, t3, t4, t5, t6, t7, t8, t9. rewrite !tags_of_nil.
    rewrite !Forall_cons, Forall_nil.
    destruct (field location "country"), (field location "countrycode"),
      (field location "state"), (field location "county"),
      (field location "city"); simpl;
      try (split; intros H; decompose [and] H; discriminate).
    destruct (field location "suburb"), (field location "district"),
      (field location "street"), (field location "postcode"),
      (field location "name"); simpl;
      try destruct (field location "housenumber"); simpl;
      split; intros H; decompose [and] H; try discriminate; auto 15.
  - intros xmp.
    set (flags := ["-overwrite_original"; "-P"; "-codedcharacterset=utf8"]).
    replace ([exiftool] ++ t1 ++ t2 ++ t3 ++ t4 ++ t5 ++ t6 ++ t7 ++ t8 ++ t9
             ++ ["-overwrite_original"; "-P"; "-codedcharacterset=utf8"; image_path])
      with (([exiftool] ++ t1 ++ t2 ++ t3 ++ t4 ++ t5 ++ t6 ++ t7 ++ t8 ++ t9
             ++ flags) ++ [image_path])
      by (by rewrite <- !app_assoc).
    rewrite sidecar_arguments_last. by rewrite <- !app_assoc.
Qed.

End WriteArguments.

Section FileFacts.
Context {R : PyRuntime}.

Lemma update_stats_eq f (self : GeocodingWorker) :
  update_stats f self = (Ok tt, (update_stats f self).2).
Proof. reflexivity. Qed.

Lemma reverse_geocode_cases (image : ImageFile) (lat lon : float)
  (self : GeocodingWorker) :
  exists x w,
    reverse_geocode image lat lon self = (Ok x, w)
    /\ ((x = None /\ stats w = incr_api_calls (stats self))
        \/ (truthy x = true
            /\ (stats w = incr_cache_hits (stats self)
                \/ stats w = incr_api_calls (stats self)))).
Proof.
  destruct (truthy (get (cache self) (now_get image) lat lon).1) eqn:Hcached.
  - rewrite (reverse_geocode_hit _ _ _ _ Hcached). eexists _, _.
    split; [reflexivity|]. right. auto.
  - unfold reverse_geocode.
    rewrite (bind_ok _ _ _ _ _ (cache_get_eq _ _ _ _)), Hcached.
    destruct (geocoder image) as [msg|msg|[[|[props|] rest]|]];
      unfold bind; simpl; eexists _, _; (split; [reflexivity|]); auto.
Qed.

Lemma compare_location_data_cases (image : ImageFile) (location : LocationRecord)
  (self : GeocodingWorker) :
  exists differs w,
    compare_location_data image location self = (Ok differs, w)
    /\ stats w = stats self.
Proof.
  pose proof (silent_compare image location self) as (Hs & _).
  destruct (compare_location_data image location self) as [[differs|msg] w] eqn:Hc.
  - eauto.
  - exfalso. revert Hc.
    unfold compare_location_data, subprocess_run, bind. simpl.
    destruct (place_probe image); simpl; try discriminate.
    by destruct (_ && _).
Qed.

Lemma finish_image_cases (image : ImageFile) (x : option LocationRecord)
  (self : GeocodingWorker) :
  exists out w,
    finish_image image x self = (Ok out, w)
    /\ if truthy x
       then (out = UNCHANGED
             /\ stats w = incr_metadata_unchanged (incr_total_processed (stats self)))
            \/ (out = WRITTEN
                /\ (stats w = incr_total_processed (stats self)
                    \/ stats w = incr_metadata_written
                                   (incr_total_processed (stats self))))
       else out = NO_LOCATION_FOUND /\ stats w = stats self.
Proof.
  unfold finish_image. destruct (truthy x); cbn [negb].
  - rewrite (bind_ok _ _ _ _ _ (update_stats_eq _ _)).
    unfold log. rewrite (bind_ok _ _ _ _ _ (emit_eq _ _)).
    match goal with
    | |- context [bind (compare_location_data ?i ?l) _ ?w] =>
        destruct (compare_location_data_cases i l w) as (differs & w1 & Hc & Hs1)
    end.
    rewrite (bind_ok _ _ _ _ _ Hc). simpl in Hs1.
    destruct differs; cbn [negb].
    + destruct (write_location_data_effect image (default ∅ x) w1)
        as (w2 & events & Hw & Hs2 & _).
      rewrite (bind_ok _ _ _ _ _ Hw). eexists _, _. split; [reflexivity|].
      right. split; [reflexivity|]. rewrite Hs2, Hs1.
      destruct (match write_run image with Completed rc _ => rc =? 0 | _ => false end);
        auto.
    + eexists _, _. split; [reflexivity|]. left. simpl. by rewrite Hs1.
  - eexists _, _. split; [reflexivity|]. auto.
Qed.

Lemma process_image_stats (image : ImageFile) (self : GeocodingWorker) :
  let r := process_image image self in
  match r.1 with
  | Raise _ => stats r.2 = stats self
  | Ok SKIPPED_ALREADY_TAGGED =>
      stats r.2 = incr_skipped_already_tagged (stats self)
  | Ok SKIPPED_NO_GPS => stats r.2 = incr_skipped_no_gps (stats self)
  | Ok NO_LOCATION_FOUND => stats r.2 = incr_api_calls (stats self)
  | Ok UNCHANGED =>
      exists s1,
        (s1 = incr_cache_hits (stats self) \/ s1 = incr_api_calls (stats self))
        /\ stats r.2 = incr_metadata_unchanged (incr_total_processed s1)
  | Ok WRITTEN =>
      exists s1,
        (s1 = incr_cache_hits (stats self) \/ s1 = incr_api_calls (stats self))
        /\ (stats r.2 = incr_total_processed s1
            \/ stats r.2 = incr_metadata_written (incr_total_processed s1))
  end.
Proof.
  unfold process_image, log. cbv zeta.
  rewrite (bind_ok _ _ _ _ _ (emit_eq _ _)).
  match goal with
  | |- context [bind (skip_condition image) _ ?w] =>
      pose proof (silent_skip_condition image w) as (Hs1 & _);
      destruct (skip_condition image w) as [[tagged|msg] w1] eqn:Hskip
  end; simpl in Hs1.
  2: { rewrite (bind_raise _ _ _ _ _ Hskip). exact Hs1. }
  rewrite (bind_ok _ _ _ _ _ Hskip). destruct tagged.
  { unfold bind. simpl. by rewrite Hs1. }
  pose proof (silent_get_gps_data image w1) as (Hs2 & _).
  destruct (get_gps_data image w1) as [[[[lat lon]|]|msg] w2] eqn:Hgps;
    simpl in Hs2.
  - rewrite (bind_ok _ _ _ _ _ Hgps).
    rewrite (bind_ok _ _ _ _ _ (emit_eq _ _)).
    match goal with
    | |- context [bind (reverse_geocode image lat lon) _ ?w] =>
        destruct (reverse_geocode_cases image lat lon w) as (x & w3 & Hgeo & Hx)
    end.
    rewrite (bind_ok _ _ _ _ _ Hgeo). simpl in Hx. rewrite Hs2, Hs1 in Hx.
    destruct (finish_image_cases image x w3) as (out & w4 & Hfin & Hout).
    rewrite Hfin. simpl.
    destruct Hx as [[-> Hs3]|[Htruthy Hs3]].
    + simpl in Hout. destruct Hout as [-> ->]. exact Hs3.
    + rewrite Htruthy in Hout.
      destruct Hout as [[-> ->]|[-> Hs4]]; exists (stats w3);
        (split; [destruct Hs3; auto|]); auto.
  - rewrite (bind_ok _ _ _ _ _ Hgps). unfold bind. simpl. by rewrite Hs2, Hs1.
  - rewrite (bind_raise _ _ _ _ _ Hgps). simpl. by rewrite Hs2, Hs1.
Qed.

End FileFacts.

Section Metering.
Context {R : PyRuntime}.

Lemma metered_ret {A} (a : A) : metered (ret a).
Proof.
  intros self. exists []. simpl. rewrite app_nil_r. split; [done|].
  unfold http_requests, count_events. simpl. lia.
Qed.

Lemma metered_raise {A} msg : metered (@raise _ A msg).
Proof.
  intros self. exists []. simpl. rewrite app_nil_r. split; [done|].
  unfold http_requests, count_events. simpl. lia.
Qed.

Lemma metered_emit e : is_http_get e = false -> metered (emit e).
Proof.
  intros He self. exists [e]. split; [reflexivity|].
  unfold http_requests. rewrite count_events_cons, He, count_events_nil.
  simpl. lia.
Qed.

Lemma metered_update_stats f :
  (forall s, api_calls (f s) = api_calls s) -> metered (update_stats f).
Proof.
  intros Hf self. exists []. simpl. rewrite app_nil_r, Hf. split; [done|].
  unfold http_requests, count_events. simpl. lia.
Qed.

Lemma metered_read_skip_existing : metered read_skip_existing.
Proof.
  intros self. exists []. simpl. rewrite app_nil_r. split; [done|].
  unfold http_requests, count_events. simpl. lia.
Qed.

Lemma metered_read_stats : metered read_stats.
Proof.
  intros self. exists []. simpl. rewrite app_nil_r. split; [done|].
  unfold http_requests, count_events. simpl. lia.
Qed.

Lemma metered_read_cache : metered read_cache.
Proof.
  intros self. exists []. simpl. rewrite app_nil_r. split; [done|].
  unfold http_requests, count_events. simpl. lia.
Qed.

Lemma metered_bind {A B} (m : M A) (k : A -> M B) :
  metered m -> (forall a, metered (k a)) -> metered (bind m k).
Proof.
  intros Hm Hk self. unfold bind.
  destruct (Hm self) as (ev1 & Ht1 & Hc1).
  destruct (m self) as [[a|msg] self1]; simpl in *.
  - destruct (Hk a self1) as (ev2 & Ht2 & Hc2).
    exists (ev1 ++ ev2). rewrite Ht2, Ht1, app_assoc. split; [reflexivity|].
    unfold http_requests in *. rewrite count_events_app. lia.
  - exists ev1. auto.
Qed.

Lemma metered_reverse_geocode image lat lon : metered (reverse_geocode image lat lon).
Proof.
  intros self.
  destruct (truthy (get (cache self) (now_get image) lat lon).1) eqn:Hcached.
  - rewrite (reverse_geocode_hit _ _ _ _ Hcached). simpl.
    exists [Log LCacheHit]. split; [reflexivity|].
    unfold http_requests. rewrite count_events_cons, count_events_nil. simpl. lia.
  - destruct (reverse_geocode_miss image lat lon self Hcached)
      as (tail & Ht & Hn & Hs & _).
    exists ([Log LApiQuery; HttpGet lat lon] ++ tail). split; [exact Ht|].
    rewrite Hs. unfold http_requests.
    rewrite count_events_app, Hn, !count_events_cons, count_events_nil.
    simpl. lia.
Qed.

End Metering.

(** One step of a proof that a method counts its requests *)
Ltac metered_step :=
  first
    [ apply metered_ret
    | apply metered_raise
    | apply metered_read_skip_existing
    | apply metered_read_stats
    | apply metered_read_cache
    | apply metered_update_stats; reflexivity
    | apply metered_emit; reflexivity
    | apply metered_bind; [|intros ?]
    | match goal with
      | |- metered (match ?x with _ => _ end) => destruct x
      end ].

Section FileTraces.
Context {R : PyRuntime}.

Lemma metered_skip_condition image : metered (skip_condition image).
Proof.
  unfold skip_condition, check_existing_location_data, subprocess_run.
  repeat metered_step.
Qed.

Lemma metered_get_gps_data image : metered (get_gps_data image).
Proof. unfold get_gps_data, subprocess_run, log. repeat metered_step. Qed.

Lemma metered_finish_image image location : metered (finish_image image location).
Proof.
  unfold finish_image, compare_location_data, write_location_data,
    subprocess_run, log.
  repeat metered_step.
Qed.

Lemma metered_process_image image : metered (process_image image).
Proof.
  unfold process_image, log.
  apply metered_bind; [metered_step|]. intros _.
  apply metered_bind; [apply metered_skip_condition|]. intros [].
  - repeat metered_step.
  - apply metered_bind; [apply metered_get_gps_data|]. intros [[lat lon]|].
    + apply metered_bind; [metered_step|]. intros _.
      apply metered_bind; [apply metered_reverse_geocode|]. intros location.
      apply metered_finish_image.
    + repeat metered_step.
Qed.

Lemma readers_get_gps_data image : appends is_read_event (get_gps_data image).
Proof. unfold get_gps_data, subprocess_run, log. repeat appends_step. Qed.

Lemma readers_skip_condition image : appends is_read_event (skip_condition image).
Proof.
  unfold skip_condition, check_existing_location_data, subprocess_run.
  repeat appends_step.
Qed.

Lemma readers_reverse_geocode image lat lon :
  appends is_read_event (reverse_geocode image lat lon).
Proof. unfold reverse_geocode, log. repeat appends_step. Qed.

Lemma readers_compare image location :
  appends is_read_event (compare_location_data image location).
Proof. unfold compare_location_data, subprocess_run. repeat appends_step. Qed.

Lemma late_get_gps_data image : appends is_late_file_event (get_gps_data image).
Proof. unfold get_gps_data, subprocess_run, log. repeat appends_step. Qed.

Lemma late_reverse_geocode image lat lon :
  appends is_late_file_event (reverse_geocode image lat lon).
Proof. unfold reverse_geocode, log. repeat appends_step. Qed.

Lemma late_finish_image image location :
  appends is_late_file_event (finish_image image location).
Proof.
  unfold finish_image, compare_location_data, write_location_data,
    subprocess_run, log.
  repeat appends_step.
Qed.

End FileTraces.

Section FileClaims.
Context {R : PyRuntime}.

Lemma counted_after_refl (s : Stats) : counted_after s s.
Proof. unfold counted_after. repeat split; lia. Qed.

Lemma counted_after_trans (s1 s2 s3 : Stats) :
  counted_after s1 s2 -> counted_after s2 s3 -> counted_after s1 s3.
Proof. unfold counted_after. intros H1 H2. repeat split; lia. Qed.

(** What one file does to the counters. *)
Lemma process_image_step (image : ImageFile) (self : GeocodingWorker) :
  let r := process_image image self in
  (visits (stats r.2) + raised r.1)%nat = S (visits (stats self))
  /\ counted_after (stats self) (stats r.2).
Proof.
  cbv zeta. pose proof (process_image_stats image self) as H. cbv zeta in H.
  unfold visits, counted_after.
  destruct (process_image image self) as [[[]|msg] w]; simpl in *.
  1-3: rewrite H; simpl; repeat split; lia.
  3: rewrite H; simpl; repeat split; lia.
  - destruct H as (s1 & [->| ->] & ->); simpl; repeat split; lia.
  - destruct H as (s1 & [->| ->] & [->| ->]); simpl; repeat split; lia.
Qed.

(** X16.  What [process_image] does to the counters is fixed by the way it
    ends: skipped as tagged, skipped for want of GPS data, no location (the
    request was sent and counted in api_calls), unchanged or written (one
    lookup counted as hit or as request, total_processed raised by one, and
    metadata_unchanged, or metadata_written if the tool succeeded, by one);
    when it raises, no counter has moved.  So every file that is processed
    to its end raises exactly one of skipped_already_tagged, skipped_no_gps,
    cache_hits and api_calls. *)
Theorem process_image_counters (image : ImageFile) (self : GeocodingWorker) :
  let r := process_image image self in
  match r.1 with
  | Raise _ => stats r.2 = stats self
  | Ok SKIPPED_ALREADY_TAGGED =>
      stats r.2 = incr_skipped_already_tagged (stats self)
  | Ok SKIPPED_NO_GPS => stats r.2 = incr_skipped_no_gps (stats self)
  | Ok NO_LOCATION_FOUND => stats r.2 = incr_api_calls (stats self)
  | Ok UNCHANGED =>
      exists s1,
        (s1 = incr_cache_hits (stats self) \/ s1 = incr_api_calls (stats self))
        /\ stats r.2 = incr_metadata_unchanged (incr_total_processed s1)
  | Ok WRITTEN =>
      exists s1,
        (s1 = incr_cache_hits (stats self) \/ s1 = incr_api_calls (stats self))
        /\ (stats r.2 = incr_total_processed s1
            \/ stats r.2 = incr_metadata_written (incr_total_processed s1))
  end
  /\ (visits (stats r.2) + raised r.1)%nat = S (visits (stats self)).
Proof.
  intros r. split.
  - apply process_image_stats.
  - apply process_image_step.
Qed.

Lemma count_events_read_events (events : list event) :
  Forall (fun e => is_read_event e = true) events ->
  count_events is_write events = 0%nat.
Proof.
  apply count_events_none. intros e. unfold is_read_event.
  destruct (is_write e); [|reflexivity]. by rewrite andb_false_r.
Qed.

Lemma count_events_late_events (events : list event) :
  Forall (fun e => is_late_file_event e = true) events ->
  count_events is_city_read events = 0%nat.
Proof.
  apply count_events_none. intros e. unfold is_late_file_event.
  destruct (is_city_read e); [|reflexivity]. by rewrite andb_false_r.
Qed.

Lemma finish_image_writes (image : ImageFile) (x : option LocationRecord)
  (self : GeocodingWorker) :
  exists out w events,
    finish_image image x self = (Ok out, w)
    /\ trace w = trace self ++ events
    /\ count_events is_write events
       = match out with
         | WRITTEN =>
             if match write_run image with
                | Completed returncode _ => returncode =? 0
                | TimeoutExpired | FileNotFoundError _ | OtherException _ => false
                end && sidecar_at_write image
             then 2%nat else 1%nat
         | _ => 0%nat
         end.
Proof.
  unfold finish_image. destruct (negb (truthy x)).
  { eexists _, _, _. split; [reflexivity|]. split; [reflexivity|].
    by rewrite count_events_cons, count_events_nil. }
  rewrite (bind_ok _ _ _ _ _ (update_stats_eq _ _)).
  unfold log. rewrite (bind_ok _ _ _ _ _ (emit_eq _ _)).
  match goal with
  | |- context [bind (compare_location_data ?i ?l) _ ?w] =>
      destruct (compare_location_data_cases i l w) as (differs & w1 & Hc & _);
      destruct (readers_compare i l w) as (evc & Htc & Hfc)
  end.
  rewrite Hc in Htc. simpl in Htc.
  rewrite (bind_ok _ _ _ _ _ Hc).
  apply count_events_read_events in Hfc.
  destruct differs; cbn [negb].
  - destruct (write_location_data_effect image (default ∅ x) w1)
      as (w2 & evw & Hw & _ & _ & _ & Htw & Hfw & _).
    rewrite (bind_ok _ _ _ _ _ Hw).
    eexists _, _, ([Log (LLocation (default ∅ x))] ++ evc ++ evw).
    split; [reflexivity|]. split.
    + simpl. rewrite Htw, Htc. by rewrite <- !app_assoc.
    + rewrite !count_events_app, Hfc, count_events_cons, count_events_nil.
      unfold count_events at 1. rewrite Hfw.
      by destruct (_ && _).
  - eexists _, _, ([Log (LLocation (default ∅ x))] ++ evc ++ [Log LUnchanged]).
    split; [reflexivity|]. split.
    + simpl. rewrite Htc. by rewrite <- !app_assoc.
    + by rewrite !count_events_app, Hfc, !count_events_cons, count_events_nil.
Qed.

(** X17.  [process_image] runs the tool for writing only when it ends as
    WRITTEN: then once on the image and, if that run succeeded and a
    sidecar exists, once more on the sidecar; on every other ending
    (skipped, no location, unchanged, an exception) no write is run. *)
Theorem writes_only_when_written (image : ImageFile) (self : GeocodingWorker) :
  let r := process_image image self in
  exists events,
    trace r.2 = trace self ++ events
    /\ count_events is_write events
       = match r.1 with
         | Ok WRITTEN =>
             if match write_run image with
                | Completed returncode _ => returncode =? 0
                | TimeoutExpired | FileNotFoundError _ | OtherException _ => false
                end && sidecar_at_write image
             then 2%nat else 1%nat
         | _ => 0%nat
         end.
Proof.
  unfold process_image, log. cbv zeta.
  rewrite (bind_ok _ _ _ _ _ (emit_eq _ _)).
  match goal with
  | |- context [bind (skip_condition image) _ ?w] =>
      destruct (readers_skip_condition image w) as (ev1 & Ht1 & Hf1);
      destruct (skip_condition image w) as [[tagged|msg] w1] eqn:Hskip
  end; simpl in Ht1; apply count_events_read_events in Hf1.
  2: { rewrite (bind_raise _ _ _ _ _ Hskip). simpl.
       exists ([Log (LImage (file_name image))] ++ ev1).
       split; [by rewrite Ht1, <- app_assoc|].
       by rewrite count_events_app, Hf1, count_events_cons, count_events_nil. }
  rewrite (bind_ok _ _ _ _ _ Hskip). destruct tagged.
  { unfold bind. simpl.
    exists ([Log (LImage (file_name image))] ++ ev1 ++ [Log LAlreadyTagged]).
    split; [by rewrite Ht1, <- !app_assoc|].
    by rewrite !count_events_app, Hf1, !count_events_cons, count_events_nil. }
  destruct (readers_get_gps_data image w1) as (ev2 & Ht2 & Hf2).
  apply count_events_read_events in Hf2.
  destruct (get_gps_data image w1) as [[[[lat lon]|]|msg] w2] eqn:Hgps;
    simpl in Ht2.
  - rewrite (bind_ok _ _ _ _ _ Hgps).
    rewrite (bind_ok _ _ _ _ _ (emit_eq _ _)).
    match goal with
    | |- context [bind (reverse_geocode image lat lon) _ ?w] =>
        destruct (reverse_geocode_cases image lat lon w) as (x & w3 & Hgeo & _);
        destruct (readers_reverse_geocode image lat lon w) as (ev3 & Ht3 & Hf3)
    end.
    rewrite Hgeo in Ht3. simpl in Ht3. apply count_events_read_events in Hf3.
    rewrite (bind_ok _ _ _ _ _ Hgeo).
    destruct (finish_image_writes image x w3) as (out & w4 & ev4 & Hfin & Ht4 & Hc4).
    rewrite Hfin. simpl.
    exists ([Log (LImage (file_name image))] ++ ev1 ++ ev2
            ++ [Log (LGps lat lon)] ++ ev3 ++ ev4).
    split; [by rewrite Ht4, Ht3, Ht2, Ht1, <- !app_assoc|].
    rewrite !count_events_app, Hf1, Hf2, Hf3, Hc4, !count_events_cons,
      count_events_nil.
    reflexivity.
  - rewrite (bind_ok _ _ _ _ _ Hgps). unfold bind. simpl.
    exists ([Log (LImage (file_name image))] ++ ev1 ++ ev2 ++ [Log LNoGps]).
    split; [by rewrite Ht2, Ht1, <- !app_assoc|].
    by rewrite !count_events_app, Hf1, Hf2, !count_events_cons, count_events_nil.
  - rewrite (bind_raise _ _ _ _ _ Hgps). simpl.
    exists ([Log (LImage (file_name image))] ++ ev1 ++ ev2).
    split; [by rewrite Ht2, Ht1, <- !app_assoc|].
    by rewrite !count_events_app, Hf1, Hf2, !count_events_cons, count_events_nil.
Qed.

End FileClaims.

Section ProbeFacts.
Context {R : PyRuntime}.

Lemma process_image_after_probe (image : ImageFile) :
  exists k,
    process_image image
    = bind (log (LImage (file_name image)))
           (fun _ => bind (skip_condition image) k)
    /\ (forall tagged, appends is_late_file_event (k tagged))
    /\ (forall w, (k false w).1 <> Ok SKIPPED_ALREADY_TAGGED).
Proof.
  eexists. split; [reflexivity|]. split.
  - intros []; cbv beta iota; unfold log.
    + repeat appends_step.
    + apply appends_bind; [apply late_get_gps_data|]. intros [[lat lon]|].
      * apply appends_bind; [appends_step|]. intros _.
        apply appends_bind; [apply late_reverse_geocode|]. intros location.
        apply late_finish_image.
      * repeat appends_step.
  - intros w. cbv beta iota.
    destruct (get_gps_data image w) as [[[[lat lon]|]|msg] w2] eqn:Hgps.
    + rewrite (bind_ok _ _ _ _ _ Hgps). unfold log.
      rewrite (bind_ok _ _ _ _ _ (emit_eq _ _)).
      match goal with
      | |- context [bind (reverse_geocode image lat lon) _ ?w] =>
          destruct (reverse_geocode_cases image lat lon w) as (x & w3 & Hgeo & _)
      end.
      rewrite (bind_ok _ _ _ _ _ Hgeo).
      destruct (finish_image_cases image x w3) as (out & w4 & Hfin & Hout).
      rewrite Hfin. simpl.
      destruct (truthy x); [destruct Hout as [[-> _]|[-> _]] | destruct Hout as [-> _]];
        discriminate.
    + rewrite (bind_ok _ _ _ _ _ Hgps). unfold bind. simpl. discriminate.
    + rewrite (bind_raise _ _ _ _ _ Hgps). simpl. discriminate.
Qed.

Lemma skip_condition_effect (image : ImageFile) (self : GeocodingWorker) :
  exists tagged w events,
    skip_condition image self = (Ok tagged, w)
    /\ trace w = trace self ++ events
    /\ count_events is_city_read events
       = (if skip_existing self then 1 else 0)%nat
    /\ (skip_existing self = false -> tagged = false).
Proof.
  unfold skip_condition, read_skip_existing, check_existing_location_data,
    subprocess_run, bind, emit, ret.
  simpl. destruct (skip_existing self); [destruct (city_probe image)|]; simpl;
    eexists _, _, _; (split; [reflexivity|]);
    (split; [symmetry; apply app_nil_r || reflexivity|]);
    (split; [reflexivity|]); (discriminate || reflexivity).
Qed.

(** X18.  The probe for an existing city is run once per file when
    skip-existing is on and never when it is off: with the option off, no
    file is ever skipped as already tagged. *)
Theorem city_probe_only_when_skipping (image : ImageFile) (self : GeocodingWorker) :
  let r := process_image image self in
  (exists events,
     trace r.2 = trace self ++ events
     /\ count_events is_city_read events
        = (if skip_existing self then 1 else 0)%nat)
  /\ (skip_existing self = false -> r.1 <> Ok SKIPPED_ALREADY_TAGGED).
Proof.
  destruct (process_image_after_probe image) as (k & Heq & Hk & Hout).
  cbv zeta. rewrite Heq. unfold log.
  rewrite (bind_ok _ _ _ _ _ (emit_eq _ _)).
  match goal with
  | |- context [bind (skip_condition image) k ?w] =>
      destruct (skip_condition_effect image w)
        as (tagged & w1 & ev1 & Hskip & Ht1 & Hc1 & Hoff)
  end.
  simpl in Ht1, Hc1, Hoff. rewrite (bind_ok _ _ _ _ _ Hskip).
  destruct (Hk tagged w1) as (evk & Htk & Hfk).
  apply count_events_late_events in Hfk. split.
  - exists ([Log (LImage (file_name image))] ++ ev1 ++ evk).
    split; [by rewrite Htk, Ht1, <- !app_assoc|].
    rewrite !count_events_app, Hfk, Hc1, !count_events_cons, count_events_nil.
    simpl. lia.
  - intros Hskip_off. rewrite (Hoff Hskip_off). apply Hout.
Qed.

End ProbeFacts.

Section LoopFacts.
Context {R : PyRuntime}.

Lemma file_event_is_loop_event (e : event) :
  is_file_event e = true -> is_loop_event e = true.
Proof. unfold is_loop_event. by intros ->. Qed.

Lemma file_events_no_progress (events : list event) :
  Forall (fun e => is_file_event e = true) events ->
  filter (fun e => is_progress e = true) events = [].
Proof.
  intros H. apply filter_none. intros e He.
  rewrite Forall_forall in H. specialize (H e He).
  destruct e; simpl in *; congruence.
Qed.

Lemma progress_signals_cons (total i m : nat) :
  progress_signals total i (S m)
  = Progress (i + 1) total :: progress_signals total (S i) m.
Proof. reflexivity. Qed.

Lemma run_loop_effect should_stop total (files : list ImageFile) :
  forall i self,
    exists events m,
      trace (run_loop should_stop total i files self).2 = trace self ++ events
      /\ Forall (fun e => is_loop_event e = true) events
      /\ filter (fun e => is_progress e = true) events = progress_signals total i m
      /\ (m <= length files)%nat
      /\ (visits (stats (run_loop should_stop total i files self).2)
          + raised (run_loop should_stop total i files self).1)%nat
         = (visits (stats self) + m)%nat
      /\ counted_after (stats self)
           (stats (run_loop should_stop total i files self).2)
      /\ api_calls (stats (run_loop should_stop total i files self).2)
         = (api_calls (stats self) + http_requests events)%nat
      /\ (Forall stat_succeeds files ->
          (run_loop should_stop total i files self).1 = Ok tt)
      /\ ((forall j, should_stop j = false) ->
          (run_loop should_stop total i files self).1 = Ok tt ->
          m = length files).
Proof.
  induction files as [|f rest IH]; intros i self.
  - exists [], 0%nat. simpl. rewrite app_nil_r. unfold http_requests.
    rewrite count_events_nil.
    repeat split; auto using counted_after_refl; lia.
  - cbn [run_loop].
    rewrite (bind_ok _ _ _ _ _ (read_should_stop_eq should_stop i self)).
    destruct (should_stop i) eqn:Hstop.
    + exists [ReadShouldStop true; Log LCancelled], 0%nat. simpl.
      rewrite <- app_assoc. unfold http_requests.
      rewrite !count_events_cons, count_events_nil.
      repeat split; auto using counted_after_refl; try lia.
      intros Hnever. rewrite Hnever in Hstop. discriminate.
    + rewrite (bind_ok _ _ _ _ _ (emit_eq _ _)).
      match goal with
      | |- context [bind (process_image f) _ ?w] => set (w2 := w)
      end.
      destruct (appends_process_image f w2) as (evf & Htf & Hff).
      destruct (process_image_step f w2) as (Hvisit & Hcount).
      destruct (metered_process_image f w2) as (evf' & Htf' & Hmeter).
      assert (evf' = evf) by (rewrite Htf in Htf'; by apply app_inv_head in Htf').
      subst evf'.
      pose proof (completes_process_image f) as Hcomplete.
      destruct (process_image f w2) as [[out|msg] w3] eqn:Hfile;
        simpl in Htf, Hvisit, Hcount, Hmeter.
      * rewrite (bind_ok _ _ _ _ _ Hfile).
        destruct (IH (S i) w3) as (evr & m & Htr & Hfr & Hpr & Hm & Hvr & Hcr & Har & Hsr & Hnr).
        exists ([ReadShouldStop false; Progress (i + 1) total] ++ evf ++ evr), (S m).
        split; [rewrite Htr, Htf; unfold w2; simpl; by rewrite <- !app_assoc|].
        split.
        { apply Forall_app. split; [repeat constructor|].
          apply Forall_app. split; [|exact Hfr].
          eapply Forall_impl; [exact Hff | apply file_event_is_loop_event]. }
        split.
        { rewrite !filter_app, (file_events_no_progress evf Hff), Hpr.
          rewrite progress_signals_cons. reflexivity. }
        split; [simpl; lia|].
        split; [unfold w2 in Hvisit; simpl in Hvisit; lia|].
        split; [apply (counted_after_trans _ (stats w3)); [exact Hcount | exact Hcr]|].
        split.
        { rewrite Har, Hmeter. unfold w2. simpl. unfold http_requests.
          repeat (rewrite ?count_events_cons, ?count_events_app, ?count_events_nil).
          simpl. lia. }
        split.
        { intros Hall. apply Forall_cons in Hall as [_ Hrest]. by apply Hsr. }
        intros Hnever Hok. simpl. f_equal. by apply Hnr.
      * rewrite (bind_raise _ _ _ _ _ Hfile).
        exists ([ReadShouldStop false; Progress (i + 1) total] ++ evf), 1%nat.
        split; [simpl; rewrite Htf; unfold w2; simpl; by rewrite <- !app_assoc|].
        split.
        { apply Forall_app. split; [repeat constructor|].
          eapply Forall_impl; [exact Hff | apply file_event_is_loop_event]. }
        split.
        { rewrite !filter_app, (file_events_no_progress evf Hff). reflexivity. }
        split; [simpl; lia|].
        split; [simpl; unfold w2 in Hvisit; simpl in Hvisit; lia|].
        split; [exact Hcount|].
        split.
        { simpl. rewrite Hmeter. unfold w2. simpl. unfold http_requests.
          repeat (rewrite ?count_events_cons, ?count_events_app, ?count_events_nil).
          simpl. lia. }
        split.
        { intros Hall. exfalso. apply Forall_cons in Hall as [Hf _].
          destruct (Hcomplete Hf w2) as (out & w & Hok).
          rewrite Hfile in Hok. discriminate. }
        simpl. discriminate.
Qed.

Lemma run_prologue_effect (files : list ImageFile) (self : GeocodingWorker) :
  exists w events,
    bind (log LSearching) (fun _ => run_prologue files) self = (Ok tt, w)
    /\ trace w = trace self ++ events
    /\ Forall (fun e => is_file_event e = true) events
    /\ stats w = stats self
    /\ http_requests events = 0%nat.
Proof.
  unfold run_prologue, bind, log, emit, read_cache, read_skip_existing, ret.
  simpl. destruct (skip_existing self); simpl; rewrite <- ?app_assoc; simpl;
    eexists _, _; (split; [reflexivity|]); (split; [reflexivity|]);
    (split; [repeat constructor|]); split; reflexivity.
Qed.

End LoopFacts.

Section RunLife.
Context {R : PyRuntime}.

Lemma loop_events_not_terminal (events : list event) :
  Forall (fun e => is_loop_event e = true) events ->
  Forall (fun e => is_terminal e = false) events.
Proof. intros H. eapply Forall_impl; [exact H|]. by intros []. Qed.

Lemma file_events_not_terminal (events : list event) :
  Forall (fun e => is_file_event e = true) events ->
  Forall (fun e => is_terminal e = false) events.
Proof. intros H. eapply Forall_impl; [exact H|]. by intros []. Qed.

Lemma epilogue_events_split (found : nat) (s : Stats) :
  exists before,
    epilogue_events found s = before ++ [Finished]
    /\ Forall (fun e => is_terminal e = false) before
    /\ filter (fun e => is_progress e = true) before = []
    /\ http_requests before = 0%nat.
Proof.
  exists ([Log LStatsHeader; Log (LStatFound found);
           Log (LStatProcessed (total_processed s));
           Log (LStatSkippedTagged (skipped_already_tagged s));
           Log (LStatSkippedNoGps (skipped_no_gps s));
           Log (LStatCacheHits (cache_hits s));
           Log (LStatApiCalls (api_calls s));
           Log (LStatWritten (metadata_written s));
           Log (LStatUnchanged (metadata_unchanged s))]
          ++ (if Nat.ltb 0 (total_processed s)
              then [Log (LStatHitRate (cache_hits s) (total_processed s))]
              else [])
          ++ [Log LStatsFooter; CacheStatsSignal s; Log LDone]).
  unfold epilogue_events.
  destruct (Nat.ltb 0 (total_processed s));
    (split; [reflexivity|]); (split; [repeat constructor|]); split; reflexivity.
Qed.

(** What a run does, for every behaviour of the flag and every list of
    files: the events it causes, the signal that ends it and the number [m]
    of files it started. *)
Lemma run_effect should_stop (files : list ImageFile) (self : GeocodingWorker) :
  exists events terminal m,
    trace (run should_stop files self) = trace self ++ events ++ [terminal]
    /\ Forall (fun e => is_terminal e = false) events
    /\ (terminal = Finished \/ exists msg, terminal = Error msg)
    /\ filter (fun e => is_progress e = true) events
       = progress_signals (length files) 0 m
    /\ (m <= length files)%nat
    /\ (visits (stats (run should_stop files self))
        + (if is_error terminal then 1 else 0))%nat
       = (visits (stats self) + m)%nat
    /\ counted_after (stats self) (stats (run should_stop files self))
    /\ api_calls (stats (run should_stop files self))
       = (api_calls (stats self) + http_requests events)%nat
    /\ (Forall stat_succeeds files -> terminal = Finished)
    /\ ((forall j, should_stop j = false) -> terminal = Finished ->
        m = length files).
Proof.
  unfold run, run_body.
  destruct files as [|f rest].
  { exists [Log LSearching; Log LNoFiles], Finished, 0%nat.
    unfold bind, log, emit. simpl.
    split; [by rewrite <- !app_assoc|].
    repeat split; auto using counted_after_refl; try lia. }
  set (files := f :: rest).
  destruct (run_prologue_effect files self) as (w1 & evp & Hpro & Htp & Hfp & Hsp & Hhp).
  apply bind_ok_inv in Hpro as ([] & w0 & Hlog & Hpro).
  rewrite (bind_ok _ _ _ _ _ Hlog), (bind_ok _ _ _ _ _ Hpro).
  destruct (run_loop_effect should_stop (length files) files 0 w1)
    as (evl & m & Htl & Hfl & Hpl & Hm & Hvl & Hcl & Hal & Hsl & Hnl).
  rewrite Hsp in Hvl, Hcl, Hal.
  destruct (run_loop should_stop (length files) 0 files w1) as [[[]|msg] w2] eqn:Hloop;
    simpl in Htl, Hvl, Hcl, Hal, Hsl, Hnl.
  - rewrite (bind_ok _ _ _ _ _ Hloop).
    destruct (run_epilogue_eq files w2) as (fin & Hepi & Htf & Hsf & _).
    rewrite Hepi.
    destruct (epilogue_events_split (length files) (stats w2))
      as (before & Hsplit & Hfb & Hpb & Hhb).
    exists (evp ++ evl ++ before), Finished, m.
    split; [rewrite Htf, Hsplit, Htl, Htp; by rewrite <- !app_assoc|].
    split.
    { apply Forall_app. split; [by apply file_events_not_terminal|].
      apply Forall_app. split; [by apply loop_events_not_terminal | exact Hfb]. }
    split; [by left|].
    split.
    { rewrite !filter_app, (file_events_no_progress evp Hfp), Hpl, Hpb.
      by rewrite app_nil_r. }
    split; [exact Hm|].
    rewrite Hsf. simpl.
    split; [lia|]. split; [exact Hcl|].
    split.
    { rewrite Hal. unfold http_requests in *.
      rewrite !count_events_app. lia. }
    split; [reflexivity|].
    intros Hnever _. by apply Hnl.
  - rewrite (bind_raise _ _ _ _ _ Hloop).
    exists (evp ++ evl), (Error ("Fehler: " +:+ msg)), m.
    split; [simpl; rewrite Htl, Htp; by rewrite <- !app_assoc|].
    split.
    { apply Forall_app. split; [by apply file_events_not_terminal|].
      by apply loop_events_not_terminal. }
    split; [right; eauto|].
    split.
    { rewrite !filter_app, (file_events_no_progress evp Hfp), Hpl. reflexivity. }
    split; [exact Hm|]. simpl.
    split; [lia|]. split; [exact Hcl|].
    split.
    { rewrite Hal. unfold http_requests in *.
      rewrite !count_events_app. lia. }
    split.
    { intros Hall. specialize (Hsl Hall). discriminate. }
    discriminate.
Qed.

End RunLife.

Section RunProperties.
Context {R : PyRuntime}.

Lemma count_events_not_terminal (events : list event) :
  Forall (fun e => is_terminal e = false) events ->
  count_events is_finished events = 0%nat
  /\ count_events is_error events = 0%nat.
Proof.
  intros H. rewrite Forall_forall in H.
  unfold count_events. split; rewrite filter_none; try reflexivity;
    intros e He Hf; specialize (H e He); unfold is_terminal in H;
    rewrite Hf in H; [discriminate|by rewrite orb_true_r in H].
Qed.

(** X19.  Every run, whatever the flag does and whatever the files hold,
    ends with exactly one terminal signal, which is its last event:
    [finished] when the body returns, [error] when an exception leaves
    it, never both and never neither. *)
Theorem run_ends_with_one_signal should_stop (files : list ImageFile)
  (self : GeocodingWorker) :
  exists events terminal,
    trace (run should_stop files self) = trace self ++ events ++ [terminal]
    /\ (terminal = Finished \/ exists msg, terminal = Error msg)
    /\ (count_events is_finished (events ++ [terminal])
        + count_events is_error (events ++ [terminal]))%nat = 1%nat.
Proof.
  destruct (run_effect should_stop files self)
    as (events & terminal & m & Ht & Hnt & Hterm & _).
  exists events, terminal. split; [exact Ht|]. split; [exact Hterm|].
  destruct (count_events_not_terminal events Hnt) as [Hf He].
  rewrite !count_events_app, Hf, He, !count_events_cons, !count_events_nil.
  destruct Hterm as [->|[msg ->]]; reflexivity.
Qed.

(** X20.  The statistics account for every file: at the end of a run the
    four counters skipped_already_tagged, skipped_no_gps, cache_hits and
    api_calls have grown, together, by the number of files for which
    progress was signalled, less one if the run ended in [error] (the file
    whose processing raised is counted nowhere). *)
Theorem run_accounts_for_every_file should_stop (files : list ImageFile)
  (self : GeocodingWorker) :
  exists events,
    trace (run should_stop files self) = trace self ++ events
    /\ (visits (stats (run should_stop files self))
        + count_events is_error events)%nat
       = (visits (stats self) + count_events is_progress events)%nat
    /\ (count_events is_progress events <= length files)%nat.
Proof.
  destruct (run_effect should_stop files self)
    as (events & terminal & m & Ht & Hnt & Hterm & Hp & Hm & Hv & _).
  exists (events ++ [terminal]). split; [exact Ht|].
  destruct (count_events_not_terminal events Hnt) as [_ He].
  assert (Hcount : count_events is_progress events = m).
  { unfold count_events. rewrite Hp. unfold progress_signals.
    by rewrite length_fmap, length_seq. }
  rewrite !count_events_app, He, Hcount, !count_events_cons, !count_events_nil.
  destruct Hterm as [->|[msg ->]]; simpl in *; lia.
Qed.

(** X21.  Over a run no counter goes down, metadata_written and
    metadata_unchanged together grow by no more than total_processed, and
    total_processed by no more than cache_hits and api_calls together: from
    fresh counters, written + unchanged <= processed <= hits + calls. *)
Theorem run_keeps_counters_consistent should_stop (files : list ImageFile)
  (self : GeocodingWorker) :
  counted_after (stats self) (stats (run should_stop files self))
  /\ (stats self = fresh_stats ->
      let s := stats (run should_stop files self) in
      (metadata_written s + metadata_unchanged s <= total_processed s)%nat
      /\ (total_processed s <= cache_hits s + api_calls s)%nat).
Proof.
  destruct (run_effect should_stop files self)
    as (events & terminal & m & _ & _ & _ & _ & _ & _ & Hc & _).
  split; [exact Hc|]. intros Hfresh s. fold s in Hc.
  unfold counted_after in Hc. rewrite Hfresh in Hc. simpl in Hc. lia.
Qed.

(** X22.  api_calls counts the HTTP requests exactly: over a run it grows
    by the number of requests sent, neither more nor less, also when the
    run is cancelled or ends in [error]. *)
Theorem api_calls_count_the_requests should_stop (files : list ImageFile)
  (self : GeocodingWorker) :
  exists events,
    trace (run should_stop files self) = trace self ++ events
    /\ api_calls (stats (run should_stop files self))
       = (api_calls (stats self) + http_requests events)%nat.
Proof.
  destruct (run_effect should_stop files self)
    as (events & terminal & m & Ht & _ & Hterm & _ & _ & _ & _ & Ha & _).
  exists (events ++ [terminal]). split; [exact Ht|].
  rewrite Ha. unfold http_requests.
  rewrite count_events_app, count_events_cons, count_events_nil.
  destruct Hterm as [->|[msg ->]]; simpl; lia.
Qed.

(** X23.  Progress is signalled in order and without gaps: the progress
    signals of a run are (1, n), (2, n), ..., (m, n), in this order, for
    the n files found and some m <= n. *)
Theorem progress_is_signalled_in_order should_stop (files : list ImageFile)
  (self : GeocodingWorker) :
  exists events m,
    trace (run should_stop files self) = trace self ++ events
    /\ filter (fun e => is_progress e = true) events
       = progress_signals (length files) 0 m
    /\ (m <= length files)%nat.
Proof.
  destruct (run_effect should_stop files self)
    as (events & terminal & m & Ht & _ & Hterm & Hp & Hm & _).
  exists (events ++ [terminal]), m. split; [exact Ht|]. split; [|exact Hm].
  rewrite filter_app, Hp.
  destruct Hterm as [->|[msg ->]]; by rewrite app_nil_r.
Qed.


End RunProperties.

(** * The further properties on the sample data *)

Section FurtherSamples.
Import Samples.
#[local] Existing Instance Fixture.runtime.

Lemma sweep_is_invisible_to_get_witness :
  31 * day <= 32 * day
  /\ (get (clear_old_entries cache_with_paris (31 * day) None).2 (32 * day)
          lat_paris lon_paris).1
     = (get cache_with_paris (32 * day) lat_paris lon_paris).1.
Proof.
  assert (H : 31 * day <= 32 * day) by (vm_compute; discriminate).
  split; [exact H|].
  exact (sweep_is_invisible_to_get cache_with_paris (31 * day) (32 * day)
           lat_paris lon_paris H).
Defined.

Lemma get_earlier_witness :
  minute <= day
  /\ (get cache_with_paris day lat_paris lon_paris).1 = Some paris
  /\ (get cache_with_paris minute lat_paris lon_paris).1 = Some paris.
Proof.
  assert (H : minute <= day) by (vm_compute; discriminate).
  assert (Hlater : (get cache_with_paris day lat_paris lon_paris).1 = Some paris)
    by reflexivity.
  split; [exact H|]. split; [exact Hlater|].
  exact (get_earlier cache_with_paris minute day lat_paris lon_paris paris H Hlater).
Defined.

Lemma settings_stay_valid_witness :
  let calls := [CallSetPrecision 9; CallSetMaxAgeDays 0; CallSetPrecision 3;
                CallSet 0 lat_paris lon_paris paris; CallClearAll] in
  valid_settings (cache_of ∅)
  /\ valid_settings (foldl after_call (cache_of ∅) calls).
Proof.
  intros calls.
  assert (H : valid_settings (cache_of ∅)).
  { split; [eexists; reflexivity | reflexivity]. }
  split; [exact H|].
  exact (proj1 (settings_stay_valid (cache_of ∅) calls H)).
Defined.


Lemma run_keeps_counters_consistent_witness :
  let self := worker_on (cache_of ∅) true in
  let s := stats (run never five_files self) in
  stats self = fresh_stats
  /\ (metadata_written s + metadata_unchanged s <= total_processed s)%nat
  /\ (total_processed s <= cache_hits s + api_calls s)%nat.
Proof.
  intros self s. split; [reflexivity|].
  exact (proj2 (run_keeps_counters_consistent never five_files self) eq_refl).
Defined.


End FurtherSamples.
